(** * A shallow embedding of the hand-rolled SMTP client of [src/index.js]

    The development follows the class [SimpleSmtp]: the envelope built at the
    top of [_sendViaHostinger], the four socket event handlers registered
    inside its Promise executor, and [sendMail] / [sendEmail] around it.

    Strings are byte strings (UTF-8).  The only characters the program
    inspects are ASCII ([@], [2], [3]), so [split] and [startsWith] on bytes
    agree with JavaScript's on UTF-16 code units. *)

From Stdlib Require Import String Ascii List Bool Arith NArith Lia.
From Stdlib Require Import DecimalString DecimalPos DecimalN Permutation.
Import ListNotations.
Open Scope string_scope.

(** ** JavaScript primitives used by the program *)

Module JS.

Definition CR : ascii := Ascii.ascii_of_nat 13.
Definition LF : ascii := Ascii.ascii_of_nat 10.

Definition DQUOTE : ascii := Ascii.ascii_of_nat 34.

(** The two bytes written [\r\n] in the source's template literals. *)
Definition CRLF : string := String CR (String LF EmptyString).

(** [s.startsWith(p)] *)
Definition startsWith (s p : string) : bool := String.prefix p s.

(** [s.split(sep)] for a one-character separator: always at least one
    piece, and an empty piece on either side of a separator that begins or
    ends the string. *)
Fixpoint split (sep : ascii) (s : string) : list string :=
  match s with
  | EmptyString => [EmptyString]
  | String c s' =>
      if Ascii.eqb c sep then EmptyString :: split sep s'
      else match split sep s' with
           | [] => [String c EmptyString]
           | piece :: pieces => String c piece :: pieces
           end
  end.

(** A value interpolated in a template literal: [undefined] prints as the
    nine letters of its name. *)
Definition render (v : option string) : string :=
  match v with
  | Some s => s
  | None => "undefined"
  end.

(** Truthiness of a string-or-undefined value: [undefined] and the empty
    string are falsy. *)
Definition truthy (v : option string) : bool :=
  match v with
  | Some (String _ _) => true
  | _ => false
  end.

(** [a || b] *)
Definition or_else (a b : option string) : option string :=
  if truthy a then a else b.

(** [n.toString()] for a non-negative integer, as [Date.now()] returns. *)
Definition toString (n : N) : string :=
  NilEmpty.string_of_uint (N.to_uint n).

(** [s.replace(/\n/g, r)] *)
Fixpoint replace_newlines (r s : string) : string :=
  match s with
  | EmptyString => EmptyString
  | String c s' =>
      if Ascii.eqb c LF then r ++ replace_newlines r s'
      else String c (replace_newlines r s')
  end.

(** *** [Buffer.from(s).toString('base64')] *)

Definition alphabet : string :=
  "ABCDEFGHIJKLMNOPQRSTUVWXYZabcdefghijklmnopqrstuvwxyz0123456789+/".

Definition sextet (n : N) : ascii :=
  match String.get (N.to_nat n) alphabet with
  | Some c => c
  | None => "="%char
  end.

Definition pad : ascii := "="%char.

Fixpoint base64 (s : string) : string :=
  match s with
  | EmptyString => EmptyString
  | String a EmptyString =>
      let x := N_of_ascii a in
      String (sextet (N.shiftr x 2))
        (String (sextet (N.shiftl (N.land x 3) 4))
           (String pad (String pad EmptyString)))
  | String a (String b EmptyString) =>
      let x := N_of_ascii a in
      let y := N_of_ascii b in
      String (sextet (N.shiftr x 2))
        (String (sextet (N.lor (N.shiftl (N.land x 3) 4) (N.shiftr y 4)))
           (String (sextet (N.shiftl (N.land y 15) 2))
              (String pad EmptyString)))
  | String a (String b (String c rest)) =>
      let x := N_of_ascii a in
      let y := N_of_ascii b in
      let z := N_of_ascii c in
      String (sextet (N.shiftr x 2))
        (String (sextet (N.lor (N.shiftl (N.land x 3) 4) (N.shiftr y 4)))
           (String (sextet (N.lor (N.shiftl (N.land y 15) 2) (N.shiftr z 6)))
              (String (sextet (N.land z 63)) (base64 rest))))
  end.

(** Errors the program raises or passes on.  [Error msg] is
    [new Error(msg)]; [TypeError] is what the runtime throws when a method
    is called on [undefined] or [Buffer.from] is handed [undefined];
    [RangeError] is what [tls.connect] throws for a port it does not
    accept; [SocketError] is the object the socket's [error] event
    carries. *)
Inductive Exception : Type :=
| Error (message : string)
| TypeError
| RangeError
| SocketError (code : string).

(** A computation that returns or throws. *)
Inductive Completion (A : Type) : Type :=
| Return (a : A)
| Throw (e : Exception).
Arguments Return {A} a.
Arguments Throw {A} e.

Definition bind {A B : Type} (m : Completion A) (k : A -> Completion B)
  : Completion B :=
  match m with
  | Return a => k a
  | Throw e => Throw e
  end.

(** Calling a method on a value that may be [undefined]. *)
Definition defined {A : Type} (v : option A) : Completion A :=
  match v with
  | Some a => Return a
  | None => Throw TypeError
  end.

(** The state of a Promise.  [resolve] and [reject] settle a pending
    promise and do nothing to a settled one. *)
Inductive Promise (A : Type) : Type :=
| Pending
| Fulfilled (value : A)
| Rejected (reason : Exception).
Arguments Pending {A}.
Arguments Fulfilled {A} value.
Arguments Rejected {A} reason.

Definition resolve {A : Type} (v : A) (p : Promise A) : Promise A :=
  match p with
  | Pending => Fulfilled v
  | _ => p
  end.

Definition reject {A : Type} (e : Exception) (p : Promise A) : Promise A :=
  match p with
  | Pending => Rejected e
  | _ => p
  end.

Definition settled {A : Type} (p : Promise A) : bool :=
  match p with
  | Pending => false
  | _ => true
  end.

End JS.

Notation "x <- m ;; k" := (JS.bind m (fun x => k))
  (at level 61, m at next level, right associativity).

(** ** Data model *)

(** [this.options.auth] *)
Record Auth : Type := {
  user : option string;
  pass : option string
}.

(** [this.options], as the constructor of [SimpleSmtp] fills it from the
    process environment: a variable that is not set leaves its field
    [undefined].  The constructor sets no [timeout]; the field is read by
    [_sendViaHostinger] all the same. *)
Record Options : Type := {
  debug : bool;
  localMode : bool;
  host : option string;
  port : option N;
  secure : bool;
  timeout : option N;
  auth : Auth
}.

(** The argument of [sendMail]. *)
Record MailOptions : Type := {
  from : option string;
  to : option string;
  subject : option string;
  text : option string;
  html : option string
}.

(** An entry of the in-memory [emailStore]; [timestamp] is the instant
    whose ISO text the program stores, and [stored] holds the five fields
    copied from the request. *)
Record StoredEmail : Type := {
  id : string;
  timestamp : N;
  stored : MailOptions;
  status : string
}.

(** What the program asks of the socket, in program order. *)
Inductive SocketCall : Type :=
| connect (h : option string) (p : option N) (ms : N)
| setTimeout (ms : N)
| write (bytes : string)
| end_.

(** What the socket tells the program: the four events that have a handler. *)
Inductive Event : Type :=
| on_data (chunk : string)
| on_timeout
| on_error (err : JS.Exception)
| on_close.

(** The variables the executor's closures share: the [stage] counter, the
    socket (as the calls made on it so far) and the Promise the executor
    settles with [{ messageId }].  [uncaught] is the error of an [error]
    event that reached the socket while it had no listener: nothing catches
    it and the process dies of it. *)
Record Session : Type := {
  stage : nat;
  socket : list SocketCall;
  promise : JS.Promise string;
  uncaught : option JS.Exception
}.

(** ** The envelope *)

(** [this.options.timeout || 10000] *)
Definition timeout_or_default (this : Options) : N :=
  match timeout this with
  | Some 0%N | None => 10000%N
  | Some ms => ms
  end.

(** [s.split('@')[1]] *)
Definition after_at (s : string) : option string :=
  nth_error (JS.split "@" s) 1.

(** Line 89: the identifier is made from the clock and from
    [mailOptions.from]. *)
Definition make_messageId (now : N) (mailOptions : MailOptions)
  : JS.Completion string :=
  sender_text <- JS.defined (from mailOptions) ;;
  JS.Return ("<" ++ JS.toString now ++ "@"
               ++ JS.render (after_at sender_text) ++ ">").

(** Lines 94-104: the array literal, its elements evaluated in order. *)
Definition make_commands (this : Options) (mailOptions : MailOptions)
    (messageId : string) : JS.Completion (list string) :=
  let sender := user (auth this) in
  let recipient := to mailOptions in
  sender_text <- JS.defined sender ;;
  user_text <- JS.defined (user (auth this)) ;;
  pass_text <- JS.defined (pass (auth this)) ;;
  JS.Return
    [ "EHLO " ++ JS.render (after_at sender_text) ++ JS.CRLF;
      "AUTH LOGIN" ++ JS.CRLF;
      JS.base64 user_text ++ JS.CRLF;
      JS.base64 pass_text ++ JS.CRLF;
      "MAIL FROM:<" ++ JS.render sender ++ ">" ++ JS.CRLF;
      "RCPT TO:<" ++ JS.render recipient ++ ">" ++ JS.CRLF;
      "DATA" ++ JS.CRLF;
      "From: " ++ JS.render (from mailOptions) ++ JS.CRLF
        ++ "To: " ++ JS.render recipient ++ JS.CRLF
        ++ "Subject: " ++ JS.render (subject mailOptions) ++ JS.CRLF
        ++ "Message-ID: " ++ messageId ++ JS.CRLF
        ++ "Content-Type: text/html; charset=utf-8" ++ JS.CRLF
        ++ JS.CRLF
        ++ JS.render (JS.or_else (html mailOptions) (text mailOptions))
        ++ JS.CRLF ++ "." ++ JS.CRLF;
      "QUIT" ++ JS.CRLF ].

(** Line 80: [tls.connect] checks the port before it does anything else and
    throws for one that is not an integer from 0 to 65535; [None] is the
    port [parseInt] gives for a variable that is not set or not a
    number. *)
Definition port_accepted (this : Options) : bool :=
  match port this with
  | Some n => (n <=? 65535)%N
  | None => false
  end.

Definition tls_connect (this : Options) : JS.Completion unit :=
  if port_accepted this then JS.Return tt else JS.Throw JS.RangeError.

(** Lines 80-104 together, the straight-line part of the executor: the
    connection is asked for, then the identifier and the commands are made.
    What it returns is what the handlers close over. *)
Definition envelope (this : Options) (mailOptions : MailOptions) (now : N)
  : JS.Completion (string * list string) :=
  connected <- tls_connect this ;;
  messageId <- make_messageId now mailOptions ;;
  commands <- make_commands this mailOptions messageId ;;
  JS.Return (messageId, commands).

(** ** The event handlers *)

Section Handlers.

Variable commands : list string.
Variable messageId : string.

(** Line 115: the test on the text of one [data] event.  (The debug
    logging of lines 109-113 writes to the console only.) *)
Definition positive_reply (response : string) : bool :=
  JS.startsWith response "2" || JS.startsWith response "3"
  || JS.startsWith response "334".

(** Lines 107-123.  The index is in range under the guard, so the default
    of [nth] is never written. *)
Definition data_handler (chunk : string) (s : Session) : Session :=
  let response := chunk in
  if positive_reply response then
    if (stage s <? List.length commands)%nat then
      {| stage := S (stage s);
         socket := socket s ++ [write (nth (stage s) commands EmptyString)];
         promise := promise s;
         uncaught := uncaught s |}
    else s
  else
    {| stage := stage s;
       socket := socket s ++ [end_];
       promise := JS.reject (JS.Error ("SMTP Error: " ++ response))
                    (promise s);
       uncaught := uncaught s |}.

(** Lines 125-128. *)
Definition timeout_handler (s : Session) : Session :=
  {| stage := stage s;
     socket := socket s ++ [end_];
     promise := JS.reject (JS.Error "SMTP connection timeout") (promise s);
     uncaught := uncaught s |}.

(** Lines 130-132. *)
Definition error_handler (err : JS.Exception) (s : Session) : Session :=
  {| stage := stage s;
     socket := socket s;
     promise := JS.reject err (promise s);
     uncaught := uncaught s |}.

(** Lines 134-140. *)
Definition close_handler (s : Session) : Session :=
  {| stage := stage s;
     socket := socket s;
     promise :=
       if (List.length commands - 1 <=? stage s)%nat
       then JS.resolve messageId (promise s)
       else JS.reject (JS.Error "SMTP connection closed prematurely")
              (promise s);
     uncaught := uncaught s |}.

Definition handle (s : Session) (e : Event) : Session :=
  match e with
  | on_data chunk => data_handler chunk s
  | on_timeout => timeout_handler s
  | on_error err => error_handler err s
  | on_close => close_handler s
  end.

(** The handlers run one event at a time, in arrival order. *)
Definition run (s : Session) (events : list Event) : Session :=
  fold_left handle events s.

End Handlers.

(** ** [_sendViaHostinger], [sendMail], [sendEmail] *)

(** Lines 80-88, once [tls.connect] has accepted the port: the socket is
    opened and its timer armed before anything else happens. *)
Definition opened (this : Options) : Session :=
  {| stage := 0;
     socket := [connect (host this) (port this) (timeout_or_default this);
                setTimeout (timeout_or_default this)];
     promise := JS.Pending;
     uncaught := None |}.

(** The first [error] event of a sequence, if there is one. *)
Fixpoint first_error (events : list Event) : option JS.Exception :=
  match events with
  | [] => None
  | on_error err :: _ => Some err
  | _ :: rest => first_error rest
  end.

(** The Promise executor followed by the events the socket delivers.  An
    exception thrown in the executor rejects the Promise.  When it is
    [tls.connect] that throws there is no socket, so there are no events
    either.  When building the identifier or the commands throws, the
    socket is open and has no listener: data, timeout and close pass
    unnoticed, and the first error is uncaught. *)
Definition _sendViaHostinger (this : Options) (mailOptions : MailOptions)
    (now : N) (events : list Event) : Session :=
  match envelope this mailOptions now with
  | JS.Throw e =>
      if port_accepted this then
        {| stage := 0;
           socket := socket (opened this);
           promise := JS.Rejected e;
           uncaught := first_error events |}
      else
        {| stage := 0;
           socket := [];
           promise := JS.Rejected e;
           uncaught := None |}
  | JS.Return (messageId, commands) =>
      run commands messageId (opened this) events
  end.

(** Lines 46-74.  In local mode the mail is pushed on [emailStore] and no
    socket exists; otherwise the result of [_sendViaHostinger] is passed on
    (the [catch] logs and rethrows). *)
Definition sendMail (this : Options) (mailOptions : MailOptions) (now : N)
    (events : list Event) (emailStore : list StoredEmail)
  : list StoredEmail * list SocketCall * JS.Promise string :=
  if localMode this then
    let email := {| id := JS.toString now;
                    timestamp := now;
                    stored := mailOptions;
                    status := "sent (local)" |} in
    ((emailStore ++ [email])%list, [], JS.Fulfilled (id email))
  else
    let s := _sendViaHostinger this mailOptions now events in
    (emailStore, socket s, promise s).

(** Lines 174-180: the request [sendEmail] hands to [sendMail];
    [smtp_user] is [process.env.SMTP_USER]. *)
Definition sendEmail_request (smtp_user : option string)
    (senderName recipient subject_text : option string) (message : string)
  : MailOptions :=
  {| from := Some (String JS.DQUOTE (JS.render senderName)
                     ++ String JS.DQUOTE " <" ++ JS.render smtp_user ++ ">");
     to := recipient;
     subject := subject_text;
     text := Some message;
     html := Some (JS.replace_newlines "<br>" message) |}.

(** ** What reaches the wire *)

(** Every [write] the program has called. *)
Fixpoint writes (calls : list SocketCall) : list string :=
  match calls with
  | [] => []
  | write bytes :: rest => bytes :: writes rest
  | _ :: rest => writes rest
  end.

(** The stream refuses a [write] made after [end()]: what is transmitted is
    what was written before the first [end_]. *)
Fixpoint transmitted (calls : list SocketCall) : list string :=
  match calls with
  | [] => []
  | write bytes :: rest => bytes :: transmitted rest
  | end_ :: _ => []
  | _ :: rest => transmitted rest
  end.

Definition ended (calls : list SocketCall) : bool :=
  existsb (fun c => match c with end_ => true | _ => false end) calls.

(** ** A sample configuration and request *)

Module Sample.

Definition options : Options :=
  {| debug := true;
     localMode := false;
     host := Some "smtp.hostinger.com";
     port := Some 465%N;
     secure := true;
     timeout := None;
     auth := {| user := Some "info@example.com"; pass := Some "s3cret" |} |}.

(** The same configuration when [SMTP_PORT] is not set. *)
Definition options_without_port : Options :=
  {| debug := true;
     localMode := false;
     host := Some "smtp.hostinger.com";
     port := None;
     secure := true;
     timeout := None;
     auth := {| user := Some "info@example.com"; pass := Some "s3cret" |} |}.

Definition clock : N := 1700000000000%N.

(** A request made directly, with a bare address as sender. *)
Definition direct : MailOptions :=
  {| from := Some "info@example.com";
     to := Some "bob@example.org";
     subject := Some "Hello";
     text := Some "Hi Bob";
     html := None |}.

(** The request [sendEmail] makes for the same mail. *)
Definition routed : MailOptions :=
  sendEmail_request (Some "info@example.com") (Some "Alice")
    (Some "bob@example.org") (Some "Hello") "Hi Bob".

(** Requests with a field left out. *)
Definition no_recipient : MailOptions :=
  {| from := Some "info@example.com";
     to := None;
     subject := Some "Hello";
     text := Some "Hi Bob";
     html := None |}.

Definition no_sender : MailOptions :=
  {| from := None;
     to := Some "bob@example.org";
     subject := Some "Hello";
     text := Some "Hi Bob";
     html := None |}.

Definition local_options : Options :=
  {| debug := false;
     localMode := true;
     host := None;
     port := None;
     secure := false;
     timeout := None;
     auth := {| user := None; pass := None |} |}.

Definition reply (code : string) : string := code ++ " ok" ++ JS.CRLF.

(** The replies of a server that accepts everything, greeting first. *)
Definition happy_chunks : list string :=
  map reply
    ["220"; "250"; "334"; "334"; "235"; "250"; "250"; "354"; "250"; "221"].

Definition happy : list Event := map on_data happy_chunks.

End Sample.

(** ** Vocabulary of the specification *)

(** The spec's response classes, as far as one [data] event can tell them
    apart: the handler has two branches. *)
Inductive Classification : Type :=
| Positive
| Negative.

Definition classify (chunk : string) : Classification :=
  if positive_reply chunk then Positive else Negative.

(** How many deliveries the handler took as positive. *)
Definition count_positives (chunks : list string) : nat :=
  List.length (filter positive_reply chunks).

(** How many positive deliveries came before the first negative one. *)
Fixpoint leading_positives (chunks : list string) : nat :=
  match chunks with
  | [] => 0
  | chunk :: rest =>
      if positive_reply chunk then S (leading_positives rest) else 0
  end.

(** The events that end a session, according to the spec: the three socket
    events and a delivery the handler takes as negative. *)
Definition terminal (e : Event) : bool :=
  match e with
  | on_data chunk => negb (positive_reply chunk)
  | on_timeout | on_error _ | on_close => true
  end.

(** A literal, CRLF-terminated wire command. *)
Definition ends_with_CRLF (s : string) : Prop :=
  exists command, s = command ++ JS.CRLF.

(** The pattern [^<\d+@[^@>]+>$].  Each repeated class excludes the literal
    that follows it, so taking the longest run is the only way to match. *)
Module Pattern.

Definition digit (c : ascii) : bool :=
  (48 <=? nat_of_ascii c)%nat && (nat_of_ascii c <=? 57)%nat.

Definition domain_char (c : ascii) : bool :=
  negb (Ascii.eqb c "@" || Ascii.eqb c ">").

Fixpoint skip (class : ascii -> bool) (s : string) : string :=
  match s with
  | EmptyString => EmptyString
  | String c s' => if class c then skip class s' else s
  end.

(** [class+] *)
Definition some_of (class : ascii -> bool) (s : string) : option string :=
  match s with
  | EmptyString => None
  | String c s' => if class c then Some (skip class s') else None
  end.

Definition literal (c : ascii) (s : string) : option string :=
  match s with
  | EmptyString => None
  | String d s' => if Ascii.eqb c d then Some s' else None
  end.

Definition then_ (m : option string) (k : string -> option string)
  : option string :=
  match m with
  | Some rest => k rest
  | None => None
  end.

(** Every character of [s] is in the class. *)
Fixpoint all (class : ascii -> bool) (s : string) : bool :=
  match s with
  | EmptyString => true
  | String c s' => class c && all class s'
  end.

Definition not_at (c : ascii) : bool := negb (Ascii.eqb c "@").

(** What the pattern describes: an opening bracket, one or more digits, an
    [@], one or more characters other than [@] and [>], a closing bracket,
    and nothing more. *)
Definition Shape (s : string) : Prop :=
  exists digits domain_text,
    s = String "<" (digits ++ String "@" (domain_text ++ ">"))
    /\ digits <> EmptyString /\ all digit digits = true
    /\ domain_text <> EmptyString /\ all domain_char domain_text = true.

Definition messageId (s : string) : bool :=
  match
    then_ (then_ (then_ (then_ (literal "<" s) (some_of digit))
                    (literal "@")) (some_of domain_char)) (literal ">")
  with
  | Some EmptyString => true
  | _ => false
  end.

End Pattern.

(** The envelope in the words of the specification. *)
Module Spec.

Definition N_stages : nat := 9.

Definition line (s : string) : string := s ++ JS.CRLF.

Definition header (name value : string) : string := name ++ ": " ++ value.

(** The text after the first [@] of an address, up to a further [@];
    an address without [@] has none. *)
Fixpoint until_at (s : string) : string :=
  match s with
  | EmptyString => EmptyString
  | String c s' => if Ascii.eqb c "@" then EmptyString else String c (until_at s')
  end.

Fixpoint domain (address : string) : option string :=
  match address with
  | EmptyString => None
  | String c s' => if Ascii.eqb c "@" then Some (until_at s') else domain s'
  end.

Definition header_block (sender_text recipient subject_text messageId : string)
  : list string :=
  [ header "From" sender_text;
    header "To" recipient;
    header "Subject" subject_text;
    header "Message-ID" messageId;
    header "Content-Type" "text/html; charset=utf-8" ].

(** The HTML body, falling back to the plain text. *)
Definition body (mailOptions : MailOptions) : string :=
  match html mailOptions with
  | Some (String c s) => String c s
  | _ => JS.render (text mailOptions)
  end.

(** Headers, a blank line, the body and the terminating dot, without the
    CRLF that ends the stage. *)
Definition content (headers : list string) (body_text : string) : string :=
  String.concat JS.CRLF headers ++ JS.CRLF ++ JS.CRLF
    ++ body_text ++ JS.CRLF ++ ".".

Definition stages (sender secret recipient message : string) : list string :=
  [ "EHLO " ++ JS.render (domain sender);
    "AUTH LOGIN";
    JS.base64 sender;
    JS.base64 secret;
    "MAIL FROM:<" ++ sender ++ ">";
    "RCPT TO:<" ++ recipient ++ ">";
    "DATA";
    message;
    "QUIT" ].

Definition envelope (sender secret : string) (mailOptions : MailOptions)
    (messageId : string) : list string :=
  let recipient := JS.render (to mailOptions) in
  map line
    (stages sender secret recipient
       (content
          (header_block (JS.render (from mailOptions)) recipient
             (JS.render (subject mailOptions)) messageId)
          (body mailOptions))).

End Spec.

(** The texts of the [data] events of a session, in arrival order. *)
Fixpoint deliveries (events : list Event) : list string :=
  match events with
  | [] => []
  | on_data chunk :: rest => chunk :: deliveries rest
  | _ :: rest => deliveries rest
  end.

(** The events after which the program has called [end()]. *)
Definition ends_socket (e : Event) : bool :=
  match e with
  | on_data chunk => negb (positive_reply chunk)
  | on_timeout => true
  | on_error _ | on_close => false
  end.

(** The characters base64 text is made of: letters, digits, [+], [/] and
    the padding [=]. *)
Definition base64_symbol (c : ascii) : bool :=
  let n := nat_of_ascii c in
  ((65 <=? n) && (n <=? 90) || (97 <=? n) && (n <=? 122)
   || (48 <=? n) && (n <=? 57) || (n =? 43) || (n =? 47) || (n =? 61))%nat.

Definition not_LF (c : ascii) : bool := negb (Ascii.eqb c JS.LF).

(** How many times a character occurs in a string. *)
Fixpoint occurrences (c : ascii) (s : string) : nat :=
  match s with
  | EmptyString => 0
  | String d s' => (if Ascii.eqb d c then 1 else 0) + occurrences c s'
  end.

(** A character that is neither CR nor LF. *)
Definition line_char (c : ascii) : bool :=
  negb (Ascii.eqb c JS.CR || Ascii.eqb c JS.LF).

(** ** Reading base64 back *)

(** What the receiving server does with an AUTH LOGIN line (RFC 4648):
    four symbols give three bytes, and one or two [=] at the very end mark
    a last group of one or two bytes. *)
Module Base64.

Fixpoint position (c : ascii) (s : string) : option N :=
  match s with
  | EmptyString => None
  | String d s' =>
      if Ascii.eqb c d then Some 0%N
      else match position c s' with
           | Some n => Some (N.succ n)
           | None => None
           end
  end.

Definition value (c : ascii) : option N := position c JS.alphabet.

Definition first_byte (v1 v2 : N) : ascii :=
  ascii_of_N (N.lor (N.shiftl v1 2) (N.shiftr v2 4)).

Definition second_byte (v2 v3 : N) : ascii :=
  ascii_of_N (N.lor (N.shiftl (N.land v2 15) 4) (N.shiftr v3 2)).

Definition third_byte (v3 v4 : N) : ascii :=
  ascii_of_N (N.lor (N.shiftl (N.land v3 3) 6) v4).

Fixpoint decode (s : string) : option string :=
  match s with
  | EmptyString => Some EmptyString
  | String c1 (String c2 (String c3 (String c4 rest))) =>
      match value c1, value c2 with
      | Some v1, Some v2 =>
          if Ascii.eqb c3 JS.pad then
            match rest with
            | EmptyString =>
                if Ascii.eqb c4 JS.pad
                then Some (String (first_byte v1 v2) EmptyString)
                else None
            | _ => None
            end
          else
            match value c3 with
            | Some v3 =>
                if Ascii.eqb c4 JS.pad then
                  match rest with
                  | EmptyString =>
                      Some (String (first_byte v1 v2)
                              (String (second_byte v2 v3) EmptyString))
                  | _ => None
                  end
                else
                  match value c4, decode rest with
                  | Some v4, Some bytes =>
                      Some (String (first_byte v1 v2)
                              (String (second_byte v2 v3)
                                 (String (third_byte v3 v4) bytes)))
                  | _, _ => None
                  end
            | None => None
            end
      | _, _ => None
      end
  | _ => None
  end.

(** Every byte, for the proofs by enumeration. *)
Definition all_bytes : list ascii := map ascii_of_nat (seq 0 256).

(** The checks the round trip rests on, on one byte and on two. *)
Definition one_byte_ok (a : ascii) : bool :=
  match decode (JS.base64 (String a EmptyString)) with
  | Some (String a' EmptyString) => Ascii.eqb a' a
  | _ => false
  end.

Definition two_bytes_ok (a b : ascii) : bool :=
  let x := N_of_ascii a in
  let y := N_of_ascii b in
  let s1 := JS.sextet (N.shiftr x 2) in
  let v2 := N.lor (N.shiftl (N.land x 3) 4) (N.shiftr y 4) in
  let v3 := N.lor (N.shiftl (N.land x 15) 2) (N.shiftr y 6) in
  match decode (JS.base64 (String a (String b EmptyString))) with
  | Some (String a' (String b' EmptyString)) => Ascii.eqb a' a && Ascii.eqb b' b
  | _ => false
  end
  && match value s1, value (JS.sextet v2), value (JS.sextet v3),
           value (JS.sextet (N.land y 63)) with
     | Some w1, Some w2, Some w3, Some w4 =>
         N.eqb w1 (N.shiftr x 2) && N.eqb w2 v2 && N.eqb w3 v3
         && N.eqb w4 (N.land y 63)
     | _, _, _, _ => false
     end
  && negb (Ascii.eqb (JS.sextet v3) JS.pad)
  && negb (Ascii.eqb (JS.sextet (N.land y 63)) JS.pad)
  && Ascii.eqb (first_byte (N.shiftr x 2) v2) a
  && N.eqb (N.land v2 15) (N.shiftr y 4)
  && N.eqb (N.shiftr v3 2) (N.land x 15)
  && Ascii.eqb (ascii_of_N (N.lor (N.shiftl (N.shiftr y 4) 4) (N.land y 15))) b
  && Ascii.eqb (third_byte v3 (N.land y 63)) b.

End Base64.

(** ** The web route *)

(** [process.env], as far as the program reads it. *)
Record Env : Type := {
  SMTP_HOST : option string;
  SMTP_PORT : option string;
  SMTP_SECURE : option string;
  SMTP_USER : option string;
  SMTP_PASS : option string
}.

(** Lines 32-44: [new SimpleSmtp(options)].  The two flags of [options] may
    be missing; [parseInt] is the runtime's, applied to a variable that may
    be unset.  The object built has no [timeout] property. *)
Definition SimpleSmtp (options_debug options_localMode : option bool)
    (env : Env) (parseInt : option string -> option N) : Options :=
  {| debug := match options_debug with Some b => b | None => false end;
     localMode := match options_localMode with Some b => b | None => false end;
     host := SMTP_HOST env;
     port := parseInt (SMTP_PORT env);
     secure := match SMTP_SECURE env with
               | Some flag => String.eqb flag "true"
               | None => false
               end;
     timeout := None;
     auth := {| user := SMTP_USER env; pass := SMTP_PASS env |} |}.

(** A parsed JSON value.  Of a number the program only ever asks whether it
    is zero. *)
#[warnings="-register-all"]
Inductive Json : Type :=
| JNull
| JBool (b : bool)
| JNumber (is_zero : bool)
| JString (s : string)
| JArray (items : list Json)
| JObject (members : list (string * Json)).

(** The member of an object called [key]; of two members with one name the
    later one counts, as in [JSON.parse]. *)
Fixpoint member (key : string) (members : list (string * Json))
  : option Json :=
  match members with
  | [] => None
  | (name, value) :: rest =>
      match member key rest with
      | Some later => Some later
      | None => if String.eqb name key then Some value else None
      end
  end.

(** [body.key] for the object or array that [express.json()] left in
    [req.body]: an array has no such property. *)
Definition property (key : string) (body : Json) : option Json :=
  match body with
  | JObject members => member key members
  | _ => None
  end.

(** Truthiness of a value that may be [undefined]. *)
Definition truthy_value (v : option Json) : bool :=
  match v with
  | None | Some JNull => false
  | Some (JBool b) => b
  | Some (JNumber is_zero) => negb is_zero
  | Some (JString EmptyString) => false
  | Some (JString (String _ _)) => true
  | Some (JArray _) | Some (JObject _) => true
  end.

(** One entry of [details]: [{ recipient, status }], with [error] when the
    mail failed.  [error] is the exception whose [message] the program
    reports. *)
Record Detail : Type := {
  recipient : option string;
  outcome_status : string;
  error : option JS.Exception
}.

(** What the route answers: status 400 with [{ success: false, message }],
    or status 200 with [{ success: true, sent, failed, details }]. *)
Inductive Response : Type :=
| BadRequest (message : string)
| Report (sent failed : nat) (details : list Detail).

(** What a middleware does: answer, or hand over with [next()]. *)
Inductive Middleware : Type :=
| respond (r : Response)
| next.

(** Lines 151-169. *)
Definition validateEmailRequest (body : Json) : Middleware :=
  let senderName := property "senderName" body in
  let subject_text := property "subject" body in
  let message := property "message" body in
  let recipients := property "recipients" body in
  if negb (truthy_value senderName) || negb (truthy_value subject_text)
     || negb (truthy_value message) || negb (truthy_value recipients)
  then respond (BadRequest "Missing required fields")
  else
    match recipients with
    | Some (JArray (_ :: _)) => next
    | _ => respond (BadRequest "Recipients must be a non-empty array")
    end.

(** Lines 181-184: what [sendEmail] returns once the Promise of [sendMail]
    has settled; the [catch] turns every rejection into a failed entry. *)
Definition entry (recipient_address : option string)
    (outcome : JS.Promise string) : option Detail :=
  match outcome with
  | JS.Pending => None
  | JS.Fulfilled _ =>
      Some {| recipient := recipient_address;
              outcome_status := "sent";
              error := None |}
  | JS.Rejected e =>
      Some {| recipient := recipient_address;
              outcome_status := "failed";
              error := Some e |}
  end.

(** Lines 172-185; [None] while the mail is pending. *)
Definition sendEmail (transporter : Options) (smtp_user : option string)
    (senderName recipient_address subject_text : option string)
    (message : string) (now : N) (events : list Event)
    (emailStore : list StoredEmail)
  : list StoredEmail * list SocketCall * option Detail :=
  let sent :=
    sendMail transporter
      (sendEmail_request smtp_user senderName recipient_address subject_text
         message)
      now events emailStore in
  (fst (fst sent), snd (fst sent), entry recipient_address (snd sent)).

(** A body whose four fields have the types the route is written for:
    three strings and an array of strings. *)
Record SendRequest : Type := {
  senderName : string;
  subject_line : string;
  message_text : string;
  recipients : list string
}.

Fixpoint strings_of (items : list Json) : option (list string) :=
  match items with
  | [] => Some []
  | JString s :: rest =>
      match strings_of rest with
      | Some ss => Some (s :: ss)
      | None => None
      end
  | _ :: rest => None
  end.

Definition typed (body : Json) : option SendRequest :=
  match property "senderName" body, property "subject" body,
        property "message" body, property "recipients" body with
  | Some (JString n), Some (JString s), Some (JString m), Some (JArray items) =>
      match strings_of items with
      | Some rs => Some {| senderName := n; subject_line := s;
                           message_text := m; recipients := rs |}
      | None => None
      end
  | _, _, _, _ => None
  end.

(** Lines 203-211, the synchronous part: [recipients.map] starts one
    [sendEmail] per recipient, in order; call number [i] reads the clock
    [clock i] and its socket receives [events i]. *)
Fixpoint dispatch (transporter : Options) (smtp_user : option string)
    (request : SendRequest) (addresses : list string) (i : nat)
    (clock : nat -> N) (events : nat -> list Event)
    (emailStore : list StoredEmail)
  : list StoredEmail * list (option Detail) :=
  match addresses with
  | [] => (emailStore, [])
  | address :: rest =>
      let started :=
        sendEmail transporter smtp_user (Some (senderName request))
          (Some address) (Some (subject_line request)) (message_text request)
          (clock i) (events i) emailStore in
      let others :=
        dispatch transporter smtp_user request rest (S i) clock events
          (fst (fst started)) in
      (fst others, snd started :: snd others)
  end.

(** Lines 204-210, the part after [await]: the callbacks finish in the
    order [order] (indices into the recipients), and each one bumps a
    counter and pushes its result. *)
Fixpoint tally (results : list (option Detail)) (order : list nat)
    (sentCount failedCount : nat) (details : list Detail)
  : nat * nat * list Detail :=
  match order with
  | [] => (sentCount, failedCount, details)
  | i :: later =>
      match nth i results None with
      | Some result =>
          if String.eqb (outcome_status result) "sent"
          then tally results later (S sentCount) failedCount
                 (details ++ [result])
          else tally results later sentCount (S failedCount)
                 (details ++ [result])
      | None => tally results later sentCount failedCount details
      end
  end.


(** Lines 188-228 for a typed body: the transporter is built with
    [{ debug: true, localMode: false }], the mails are started, and when
    every one of them has settled the report is sent ([None] until then).
    [order] is the order in which they settled.  Nothing in the [try] block
    throws for such a body, so the [catch] is not reached.  The report is
    what the route sends if the process lives to send it: an error nothing
    catches (the [uncaught] of a session) ends the process first. *)
Definition send_emails (env : Env) (parseInt : option string -> option N)
    (request : SendRequest) (clock : nat -> N) (events : nat -> list Event)
    (order : list nat) (emailStore : list StoredEmail)
  : list StoredEmail * option Response :=
  let transporter := SimpleSmtp (Some true) (Some false) env parseInt in
  let started :=
    dispatch transporter (SMTP_USER env) request (recipients request) 0
      clock events emailStore in
  (fst started,
   if forallb (fun result => match result with Some _ => true | None => false end)
        (snd started)
   then
     let counted := tally (snd started) order 0 0 [] in
     Some (Report (fst (fst counted)) (snd (fst counted)) (snd counted))
   else None).





(** ** A sample environment and request for the route *)

Module RouteSample.

Definition env : Env :=
  {| SMTP_HOST := Some "smtp.hostinger.com";
     SMTP_PORT := Some "465";
     SMTP_SECURE := Some "true";
     SMTP_USER := Some "info@example.com";
     SMTP_PASS := Some "s3cret" |}.



(** What [parseInt] gives for the port of these environments. *)
Definition parseInt (text_ : option string) : option N :=
  match text_ with
  | Some _ => Some 465%N
  | None => None
  end.

Definition request : SendRequest :=
  {| senderName := "Alice";
     subject_line := "Hello";
     message_text := "Hi there";
     recipients := ["bob@example.org"; "carol@example.org"] |}.

Definition body : Json :=
  JObject [("senderName", JString "Alice");
           ("subject", JString "Hello");
           ("message", JString "Hi there");
           ("recipients", JArray [JString "bob@example.org";
                                  JString "carol@example.org"])].

Definition clock (k : nat) : N := (Sample.clock + N.of_nat k)%N.

(** The first server accepts the mail, the second refuses the greeting. *)
Definition events (k : nat) : list Event :=
  match k with
  | 0 => (Sample.happy ++ [on_close])%list
  | _ => [on_data "554 go away"; on_close]
  end.

End RouteSample.

(** * Properties *)

(** ** The primitives on known values *)

Example base64_user : JS.base64 "user" = "dXNlcg==".
Proof. reflexivity. Qed.

Example base64_mail : JS.base64 "info@example.com" = "aW5mb0BleGFtcGxlLmNvbQ==".
Proof. reflexivity. Qed.

Example base64_five : JS.base64 "hello" = "aGVsbG8=".
Proof. reflexivity. Qed.

Example split_address : JS.split "@" "info@example.com" = ["info"; "example.com"].
Proof. reflexivity. Qed.

Example split_edges :
  JS.split "@" "@a@" = [EmptyString; "a"; EmptyString].
Proof. reflexivity. Qed.

Example toString_clock : JS.toString Sample.clock = "1700000000000".
Proof. reflexivity. Qed.

Example split_without_separator : after_at "postmaster" = None.
Proof. reflexivity. Qed.

(** ** Strings *)

Lemma append_assoc (a b c : string) : (a ++ b) ++ c = a ++ (b ++ c).
Proof.
  induction a as [|x a IH]; simpl; [reflexivity | now rewrite IH].
Qed.

Lemma split_first (s : string) :
  nth_error (JS.split "@" s) 0 = Some (Spec.until_at s).
Proof.
  induction s as [|c s IH]; simpl; [reflexivity|].
  destruct (Ascii.eqb c "@"); [reflexivity|].
  destruct (JS.split "@" s) as [|piece pieces]; simpl in *.
  - discriminate.
  - now inversion IH.
Qed.

(** [split('@')[1]] is the domain the spec speaks of. *)
Lemma after_at_domain (s : string) : after_at s = Spec.domain s.
Proof.
  unfold after_at.
  induction s as [|c s IH]; simpl; [reflexivity|].
  destruct (Ascii.eqb c "@").
  - simpl. apply split_first.
  - rewrite <- IH.
    destruct (JS.split "@" s) as [|piece pieces]; reflexivity.
Qed.

Lemma or_else_body (mailOptions : MailOptions) :
  JS.render (JS.or_else (html mailOptions) (text mailOptions))
  = Spec.body mailOptions.
Proof.
  unfold JS.or_else, Spec.body.
  destruct (html mailOptions) as [[|c s]|]; reflexivity.
Qed.

(** ** The envelope *)

Lemma envelope_inv this mailOptions now messageId commands :
  envelope this mailOptions now = JS.Return (messageId, commands) ->
  exists sender_text u p,
    from mailOptions = Some sender_text /\
    user (auth this) = Some u /\
    pass (auth this) = Some p /\
    make_messageId now mailOptions = JS.Return messageId /\
    make_commands this mailOptions messageId = JS.Return commands.
Proof.
  unfold envelope, tls_connect, make_messageId, make_commands.
  destruct (port_accepted this); simpl; [|discriminate].
  destruct (from mailOptions) as [f|]; simpl; [|discriminate].
  destruct (user (auth this)) as [u|]; simpl; [|discriminate].
  destruct (pass (auth this)) as [p|]; simpl; [|discriminate].
  intros H. inversion H; subst.
  exists f, u, p. repeat split; reflexivity.
Qed.

Lemma envelope_port this mailOptions now messageId commands :
  envelope this mailOptions now = JS.Return (messageId, commands) ->
  port_accepted this = true.
Proof.
  unfold envelope, tls_connect.
  destruct (port_accepted this); simpl; [reflexivity | discriminate].
Qed.

Lemma envelope_after_connect this mailOptions now :
  port_accepted this = true ->
  envelope this mailOptions now
  = (messageId <- make_messageId now mailOptions ;;
     commands <- make_commands this mailOptions messageId ;;
     JS.Return (messageId, commands)).
Proof.
  intros H. unfold envelope, tls_connect. now rewrite H.
Qed.

Lemma envelope_refused this mailOptions now :
  port_accepted this = false ->
  envelope this mailOptions now = JS.Throw JS.RangeError.
Proof.
  intros H. unfold envelope, tls_connect. now rewrite H.
Qed.

Lemma envelope_length this mailOptions now messageId commands :
  envelope this mailOptions now = JS.Return (messageId, commands) ->
  List.length commands = 9.
Proof.
  intros H. apply envelope_inv in H.
  destruct H as (f & u & p & _ & Hu & Hp & _ & H).
  unfold make_commands in H. rewrite Hu, Hp in H. simpl in H.
  inversion H. reflexivity.
Qed.

(** C8.  Whenever the sender text and both credentials are present, the
    identifier and the commands are made without an exception, and the
    commands are the nine-stage list of the specification, in order: EHLO
    with the domain of the authenticated user, AUTH LOGIN, the two base64
    credentials, MAIL FROM with the authenticated user (whatever
    [mailOptions.from] is), RCPT TO, DATA, the five headers, a blank line,
    the HTML body or else the text, the dot, and QUIT; every stage ends with
    CRLF.  Together with the identifier this list is the envelope of every
    session whose connection was accepted. *)
Theorem envelope_is_nine_stage_command_list :
  forall this mailOptions now sender_text u p,
    from mailOptions = Some sender_text ->
    user (auth this) = Some u ->
    pass (auth this) = Some p ->
    exists messageId,
      make_messageId now mailOptions = JS.Return messageId
      /\ make_commands this mailOptions messageId
         = JS.Return (Spec.envelope u p mailOptions messageId)
      /\ (port_accepted this = true ->
          envelope this mailOptions now
          = JS.Return (messageId, Spec.envelope u p mailOptions messageId))
      /\ List.length (Spec.envelope u p mailOptions messageId) = Spec.N_stages
      /\ Forall ends_with_CRLF (Spec.envelope u p mailOptions messageId)
      /\ nth 4 (Spec.envelope u p mailOptions messageId) EmptyString
         = "MAIL FROM:<" ++ u ++ ">" ++ JS.CRLF.
Proof.
  intros this mailOptions now f u p Hf Hu Hp.
  assert (Hm : make_messageId now mailOptions
               = JS.Return ("<" ++ JS.toString now ++ "@"
                              ++ JS.render (after_at f) ++ ">")).
  { unfold make_messageId. now rewrite Hf. }
  eexists. split; [exact Hm|].
  assert (Hc : make_commands this mailOptions
                 ("<" ++ JS.toString now ++ "@"
                    ++ JS.render (after_at f) ++ ">")
               = JS.Return
                   (Spec.envelope u p mailOptions
                      ("<" ++ JS.toString now ++ "@"
                         ++ JS.render (after_at f) ++ ">"))).
  { unfold make_commands. rewrite Hu, Hp. simpl JS.bind.
    f_equal.
    unfold Spec.envelope, Spec.stages, Spec.content, Spec.header_block,
      Spec.header, Spec.line.
    rewrite Hf, <- or_else_body, <- after_at_domain.
    cbn [map String.concat JS.render append JS.CRLF].
    repeat (rewrite append_assoc; cbn [append]).
    reflexivity. }
  split; [exact Hc|]. split; [|split; [|split]].
  - intros Hport. rewrite envelope_after_connect by exact Hport.
    rewrite Hm. cbn [JS.bind]. rewrite Hc. reflexivity.
  - reflexivity.
  - unfold Spec.envelope, Spec.stages, Spec.line. cbn [map].
    repeat (apply Forall_cons; [eexists; reflexivity|]). apply Forall_nil.
  - unfold Spec.envelope, Spec.stages, Spec.line. cbn [map nth].
    cbn [append]. repeat (rewrite append_assoc; cbn [append]). reflexivity.
Qed.

Lemma envelope_is_nine_stage_command_list_witness :
  exists messageId,
    make_messageId Sample.clock Sample.routed = JS.Return messageId
    /\ make_commands Sample.options Sample.routed messageId
       = JS.Return
           (Spec.envelope "info@example.com" "s3cret" Sample.routed messageId)
    /\ envelope Sample.options Sample.routed Sample.clock
       = JS.Return (messageId,
                    Spec.envelope "info@example.com" "s3cret" Sample.routed
                      messageId)
    /\ List.length
         (Spec.envelope "info@example.com" "s3cret" Sample.routed messageId)
       = Spec.N_stages
    /\ Forall ends_with_CRLF
         (Spec.envelope "info@example.com" "s3cret" Sample.routed messageId)
    /\ nth 4 (Spec.envelope "info@example.com" "s3cret" Sample.routed messageId)
         EmptyString
       = "MAIL FROM:<" ++ "info@example.com" ++ ">" ++ JS.CRLF.
Proof.
  destruct (envelope_is_nine_stage_command_list Sample.options Sample.routed
              Sample.clock (JS.render (from Sample.routed))
              "info@example.com" "s3cret" eq_refl eq_refl eq_refl)
    as (messageId & Hm & Hc & He & Hl & Hf & Hn).
  exists messageId. repeat split; try assumption.
  apply He. reflexivity.
Defined.

(** C10.  In every envelope that is built, stage 7 carries, right after the
    Message-ID line, the header [Content-Type: text/html; charset=utf-8],
    the blank line, the body and the dot; the header is the same literal
    when the HTML body is missing or empty and the plain text is sent. *)
Theorem content_type_is_always_text_html :
  forall this mailOptions now messageId commands,
    envelope this mailOptions now = JS.Return (messageId, commands) ->
    nth 7 commands EmptyString
    = ("From: " ++ JS.render (from mailOptions) ++ JS.CRLF
        ++ "To: " ++ JS.render (to mailOptions) ++ JS.CRLF
        ++ "Subject: " ++ JS.render (subject mailOptions) ++ JS.CRLF
        ++ "Message-ID: " ++ messageId ++ JS.CRLF)
      ++ "Content-Type: text/html; charset=utf-8" ++ JS.CRLF
      ++ JS.CRLF
      ++ Spec.body mailOptions ++ JS.CRLF ++ "." ++ JS.CRLF
    /\ (JS.truthy (html mailOptions) = false ->
        Spec.body mailOptions = JS.render (text mailOptions)).
Proof.
  intros this mailOptions now messageId commands H.
  apply envelope_inv in H.
  destruct H as (f & u & p & Hf & Hu & Hp & _ & H).
  unfold make_commands in H. rewrite Hu, Hp in H. simpl JS.bind in H.
  inversion H as [Hc]. clear H Hc. split.
  - cbn [nth]. rewrite or_else_body.
    cbn [append]. repeat (rewrite append_assoc; cbn [append]).
    reflexivity.
  - unfold Spec.body. destruct (html mailOptions) as [[|c s]|]; simpl;
      [reflexivity | discriminate | reflexivity].
Qed.

Lemma content_type_is_always_text_html_witness :
  nth 7 (Spec.envelope "info@example.com" "s3cret" Sample.direct
           "<1700000000000@example.com>") EmptyString
  = ("From: " ++ "info@example.com" ++ JS.CRLF
      ++ "To: " ++ "bob@example.org" ++ JS.CRLF
      ++ "Subject: " ++ "Hello" ++ JS.CRLF
      ++ "Message-ID: " ++ "<1700000000000@example.com>" ++ JS.CRLF)
    ++ "Content-Type: text/html; charset=utf-8" ++ JS.CRLF
    ++ JS.CRLF
    ++ "Hi Bob" ++ JS.CRLF ++ "." ++ JS.CRLF
  /\ (JS.truthy (html Sample.direct) = false ->
      Spec.body Sample.direct = JS.render (text Sample.direct)).
Proof.
  apply (content_type_is_always_text_html Sample.options Sample.direct
           Sample.clock).
  reflexivity.
Defined.

(** C6.  The request [sendEmail] builds for the sender name [Alice] and the
    account [info@example.com] gets the identifier
    [<1700000000000@example.com>>]: the text after the [@] of the From
    header still ends with the bracket that closes the address, so the
    identifier does not match the pattern and its domain part is not the
    sender's domain.  A request whose [from] is the bare address does get a
    well-formed identifier. *)
Theorem messageId_of_sendEmail_request_is_malformed :
  from Sample.routed
  = Some (String JS.DQUOTE ("Alice" ++ String JS.DQUOTE " <info@example.com>"))
  /\ make_messageId Sample.clock Sample.routed
     = JS.Return "<1700000000000@example.com>>"
  /\ Pattern.messageId "<1700000000000@example.com>>" = false
  /\ after_at (JS.render (from Sample.routed)) = Some "example.com>"
  /\ Spec.domain "info@example.com" = Some "example.com"
  /\ make_messageId Sample.clock Sample.direct
     = JS.Return "<1700000000000@example.com>"
  /\ Pattern.messageId "<1700000000000@example.com>" = true.
Proof.
  repeat split; reflexivity.
Qed.

(** ** The socket log *)

Lemma firstn_snoc (A : Type) (l : list A) (k : nat) (d : A) :
  k < List.length l ->
  firstn (S k) l = (firstn k l ++ [nth k l d])%list.
Proof.
  revert k. induction l as [|x l IH]; intros k Hk; simpl in Hk; [lia|].
  destruct k as [|k]; [reflexivity|].
  rewrite firstn_cons. cbn [firstn nth app]. rewrite <- IH by lia.
  reflexivity.
Qed.

Lemma writes_app (l l' : list SocketCall) :
  writes (l ++ l') = (writes l ++ writes l')%list.
Proof.
  induction l as [|c l IH]; [reflexivity|].
  destruct c; simpl; now rewrite IH.
Qed.

Lemma ended_app (l l' : list SocketCall) :
  ended (l ++ l') = ended l || ended l'.
Proof. apply existsb_app. Qed.

Lemma transmitted_after_end (l l' : list SocketCall) :
  ended l = true -> transmitted (l ++ l') = transmitted l.
Proof.
  induction l as [|c l IH]; simpl; [discriminate|].
  destruct c; simpl; intros H; try (now rewrite IH); reflexivity.
Qed.

Lemma transmitted_before_end (l l' : list SocketCall) :
  ended l = false ->
  transmitted (l ++ l') = (transmitted l ++ transmitted l')%list.
Proof.
  induction l as [|c l IH]; simpl; [reflexivity|].
  destruct c; simpl; intros H; try (now rewrite IH); discriminate.
Qed.

Lemma transmitted_open (l : list SocketCall) :
  ended l = false -> transmitted l = writes l.
Proof.
  induction l as [|c l IH]; simpl; [reflexivity|].
  destruct c; simpl; intros H; try (now rewrite IH); discriminate.
Qed.

(** ** The handlers, for any command list *)

Section Sessions.

Variable commands : list string.
Variable messageId : string.

Lemma run_app (s : Session) (first later : list Event) :
  run commands messageId s (first ++ later)
  = run commands messageId (run commands messageId s first) later.
Proof. apply fold_left_app. Qed.

Lemma run_snoc (s : Session) (events : list Event) (e : Event) :
  run commands messageId s (events ++ [e])
  = handle commands messageId (run commands messageId s events) e.
Proof. now rewrite run_app. Qed.

(** The handlers only ever add calls to the socket. *)
Lemma handle_extends (s : Session) (e : Event) :
  exists calls,
    socket (handle commands messageId s e) = (socket s ++ calls)%list.
Proof.
  destruct e as [chunk| |err|]; simpl.
  - unfold data_handler.
    destruct (positive_reply chunk); [destruct (_ <? _)%nat|]; simpl.
    + eauto.
    + exists []. now rewrite app_nil_r.
    + eauto.
  - eauto.
  - exists []. now rewrite app_nil_r.
  - exists []. now rewrite app_nil_r.
Qed.

Lemma run_extends (events : list Event) : forall s,
  exists calls,
    socket (run commands messageId s events) = (socket s ++ calls)%list.
Proof.
  unfold run.
  induction events as [|e events IH]; intros s; simpl.
  - exists []. now rewrite app_nil_r.
  - destruct (IH (handle commands messageId s e)) as [later Hl].
    destruct (handle_extends s e) as [sooner Hn].
    exists (sooner ++ later)%list.
    rewrite Hl, Hn. now rewrite app_assoc.
Qed.

(** Once [end()] has been called nothing more is transmitted. *)
Lemma transmitted_frozen (s : Session) (events : list Event) :
  ended (socket s) = true ->
  transmitted (socket (run commands messageId s events))
  = transmitted (socket s).
Proof.
  intros H. destruct (run_extends events s) as [calls Hc].
  rewrite Hc. now apply transmitted_after_end.
Qed.

(** A settled Promise stays as it is, whatever the handlers do. *)
Lemma settled_handle (s : Session) (e : Event) :
  JS.settled (promise s) = true ->
  promise (handle commands messageId s e) = promise s.
Proof.
  intros H. destruct e as [chunk| |err|]; simpl.
  - unfold data_handler.
    destruct (positive_reply chunk); [destruct (_ <? _)%nat|]; simpl;
      try reflexivity.
    destruct (promise s); [discriminate| |]; reflexivity.
  - destruct (promise s); [discriminate| |]; reflexivity.
  - destruct (promise s); [discriminate| |]; reflexivity.
  - destruct (_ <=? _)%nat; destruct (promise s);
      try discriminate; reflexivity.
Qed.

Lemma settled_run (events : list Event) : forall s,
  JS.settled (promise s) = true ->
  promise (run commands messageId s events) = promise s.
Proof.
  unfold run.
  induction events as [|e events IH]; intros s H; simpl; [reflexivity|].
  rewrite IH; rewrite settled_handle; auto.
Qed.

(** What holds of the closure variables between two events: the stage
    counter is in range, the program has written exactly the commands
    below it, in order, and it has called [end()] only when settling. *)
Record Consistent (s : Session) : Prop := {
  stage_in_range : stage s <= List.length commands;
  written_in_order : writes (socket s) = firstn (stage s) commands;
  end_only_when_settled :
    ended (socket s) = true -> JS.settled (promise s) = true
}.

Lemma settle_reject (e : JS.Exception) (p : JS.Promise string) :
  JS.settled (JS.reject e p) = true.
Proof. destruct p; reflexivity. Qed.

Lemma settle_resolve (v : string) (p : JS.Promise string) :
  JS.settled (JS.resolve v p) = true.
Proof. destruct p; reflexivity. Qed.

Lemma settled_stays_reject (e : JS.Exception) (p : JS.Promise string) :
  JS.settled p = true -> JS.settled (JS.reject e p) = true.
Proof. intros _. apply settle_reject. Qed.

Lemma Consistent_handle (s : Session) (e : Event) :
  Consistent s -> Consistent (handle commands messageId s e).
Proof.
  intros [Hr Hw He]. destruct e as [chunk| |err|]; simpl.
  - unfold data_handler. destruct (positive_reply chunk).
    + destruct (stage s <? List.length commands)%nat eqn:Hlt.
      * apply Nat.ltb_lt in Hlt. split; simpl.
        -- lia.
        -- rewrite writes_app, Hw. simpl.
           symmetry. now apply firstn_snoc.
        -- rewrite ended_app. simpl. rewrite orb_false_r. exact He.
      * split; assumption.
    + split; simpl; auto.
      * rewrite writes_app. simpl. now rewrite app_nil_r.
      * intros _. apply settle_reject.
  - split; simpl; auto.
    + rewrite writes_app. simpl. now rewrite app_nil_r.
    + intros _. apply settle_reject.
  - split; simpl; auto.
    intros H. apply settled_stays_reject. auto.
  - split; simpl; auto.
    intros _. destruct (_ <=? _)%nat;
      [apply settle_resolve | apply settle_reject].
Qed.

Lemma Consistent_run (events : list Event) : forall s,
  Consistent s -> Consistent (run commands messageId s events).
Proof.
  unfold run.
  induction events as [|e events IH]; intros s H; simpl; [exact H|].
  apply IH. now apply Consistent_handle.
Qed.

Lemma Consistent_opened (this : Options) : Consistent (opened this).
Proof.
  split; simpl; [lia | reflexivity | discriminate].
Qed.

(** While the Promise is pending, what has been transmitted is what has
    been written. *)
Lemma pending_transmitted (s : Session) :
  Consistent s -> promise s = JS.Pending ->
  ended (socket s) = false
  /\ transmitted (socket s) = firstn (stage s) commands.
Proof.
  intros [Hr Hw He] Hp.
  assert (Hopen : ended (socket s) = false).
  { destruct (ended (socket s)); [|reflexivity].
    specialize (He eq_refl). rewrite Hp in He. discriminate. }
  split; [exact Hopen|].
  now rewrite transmitted_open.
Qed.

End Sessions.

(** ** Sessions that receive only data *)

Section DataOnly.

Variable commands : list string.
Variable messageId : string.

Lemma data_handler_stage (chunk : string) (s : Session) :
  stage (data_handler commands chunk s)
  = if positive_reply chunk && (stage s <? List.length commands)%nat
    then S (stage s) else stage s.
Proof.
  unfold data_handler.
  destruct (positive_reply chunk); [|reflexivity].
  destruct (_ <? _)%nat; reflexivity.
Qed.

Lemma stage_data_only (chunks : list string) : forall s,
  stage s <= List.length commands ->
  stage (run commands messageId s (map on_data chunks))
  = Nat.min (List.length commands) (stage s + count_positives chunks).
Proof.
  unfold run, count_positives.
  induction chunks as [|chunk chunks IH]; intros s Hs; simpl.
  - lia.
  - rewrite IH; rewrite data_handler_stage.
    + destruct (positive_reply chunk); simpl.
      * destruct (stage s <? List.length commands)%nat eqn:Hlt.
        -- lia.
        -- apply Nat.ltb_ge in Hlt. lia.
      * reflexivity.
    + destruct (positive_reply chunk); simpl; [|exact Hs].
      destruct (stage s <? List.length commands)%nat eqn:Hlt; [|exact Hs].
      apply Nat.ltb_lt in Hlt. lia.
Qed.

Lemma transmitted_data_only (chunks : list string) : forall s,
  Consistent commands s ->
  ended (socket s) = false ->
  transmitted (socket (run commands messageId s (map on_data chunks)))
  = firstn (Nat.min (List.length commands)
              (stage s + leading_positives chunks)) commands.
Proof.
  induction chunks as [|chunk chunks IH]; intros s Hc Hopen.
  - simpl. rewrite transmitted_open by exact Hopen.
    rewrite (written_in_order _ _ Hc). f_equal.
    pose proof (stage_in_range _ _ Hc). lia.
  - change (run commands messageId s (map on_data (chunk :: chunks)))
      with (run commands messageId (data_handler commands chunk s)
              (map on_data chunks)).
    pose proof (Consistent_handle commands messageId s (on_data chunk) Hc)
      as Hc'.
    simpl in Hc'. simpl leading_positives.
    pose proof (stage_in_range _ _ Hc) as Hr.
    unfold data_handler in *.
    destruct (positive_reply chunk).
    + destruct (stage s <? List.length commands)%nat eqn:Hlt.
      * rewrite IH; [simpl; f_equal; lia | exact Hc' |].
        simpl. rewrite ended_app, Hopen. reflexivity.
      * apply Nat.ltb_ge in Hlt.
        rewrite IH by assumption. f_equal. lia.
    + rewrite transmitted_frozen.
      * simpl. rewrite transmitted_before_end by exact Hopen.
        simpl. rewrite app_nil_r, transmitted_open by exact Hopen.
        rewrite (written_in_order _ _ Hc). f_equal. lia.
      * simpl. rewrite ended_app. simpl. apply orb_true_r.
Qed.

End DataOnly.

(** ** Sessions of [_sendViaHostinger] *)

Lemma session_unfold this mailOptions now messageId commands events :
  envelope this mailOptions now = JS.Return (messageId, commands) ->
  _sendViaHostinger this mailOptions now events
  = run commands messageId (opened this) events.
Proof.
  intros H. unfold _sendViaHostinger. now rewrite H.
Qed.

Lemma session_consistent this mailOptions now messageId commands events :
  envelope this mailOptions now = JS.Return (messageId, commands) ->
  Consistent commands (_sendViaHostinger this mailOptions now events).
Proof.
  intros H. rewrite (session_unfold _ _ _ _ _ _ H).
  apply Consistent_run, Consistent_opened.
Qed.

(** C1, as the code has it.  In a session that receives only data, a
    delivery advances the stage by exactly one when the handler takes it as
    positive and the stage is below 9, and leaves it alone otherwise; so the
    stage is the number of positive deliveries capped at 9, the commands
    written are those below the stage in order, and the commands transmitted
    are as many as the positive deliveries before the first negative one,
    capped at 9. *)
Theorem stage_advances_once_per_positive_reply_up_to_nine :
  forall this mailOptions now messageId commands,
    envelope this mailOptions now = JS.Return (messageId, commands) ->
    (forall chunk s,
        stage (data_handler commands chunk s)
        = if positive_reply chunk && (stage s <? 9)%nat
          then S (stage s) else stage s)
    /\ forall chunks,
        let s := _sendViaHostinger this mailOptions now (map on_data chunks) in
        stage s = Nat.min 9 (count_positives chunks)
        /\ writes (socket s) = firstn (stage s) commands
        /\ transmitted (socket s)
           = firstn (Nat.min 9 (leading_positives chunks)) commands
        /\ List.length (transmitted (socket s))
           = Nat.min 9 (leading_positives chunks).
Proof.
  intros this mailOptions now messageId commands H.
  pose proof (envelope_length _ _ _ _ _ H) as Hlen.
  split.
  - intros chunk s. rewrite data_handler_stage, Hlen. reflexivity.
  - intros chunks s.
    assert (Ht : transmitted (socket s)
                 = firstn (Nat.min 9 (leading_positives chunks)) commands).
    { subst s. rewrite (session_unfold _ _ _ _ _ _ H).
      rewrite transmitted_data_only;
        [now rewrite Hlen | apply Consistent_opened | reflexivity]. }
    repeat split.
    + subst s. rewrite (session_unfold _ _ _ _ _ _ H).
      rewrite stage_data_only by (simpl; lia). now rewrite Hlen.
    + apply (written_in_order _ _ (session_consistent _ _ _ _ _ _ H)).
    + exact Ht.
    + rewrite Ht, length_firstn, Hlen. lia.
Qed.

Lemma stage_advances_once_per_positive_reply_up_to_nine_witness :
  let commands :=
    Spec.envelope "info@example.com" "s3cret" Sample.direct
      "<1700000000000@example.com>" in
  (forall chunk s,
      stage (data_handler commands chunk s)
      = if positive_reply chunk && (stage s <? 9)%nat
        then S (stage s) else stage s)
  /\ forall chunks,
      let s := _sendViaHostinger Sample.options Sample.direct Sample.clock
                 (map on_data chunks) in
      stage s = Nat.min 9 (count_positives chunks)
      /\ writes (socket s) = firstn (stage s) commands
      /\ transmitted (socket s)
         = firstn (Nat.min 9 (leading_positives chunks)) commands
      /\ List.length (transmitted (socket s))
         = Nat.min 9 (leading_positives chunks).
Proof.
  apply (stage_advances_once_per_positive_reply_up_to_nine
           Sample.options Sample.direct Sample.clock
           "<1700000000000@example.com>").
  reflexivity.
Defined.

(** C1 as stated fails on the happy path: the tenth reply, [221], is
    positive, yet the stage stays at 9 and nine commands were transmitted
    for ten consecutive positive replies. *)
Lemma tenth_positive_reply_does_not_advance :
  let session chunks :=
    _sendViaHostinger Sample.options Sample.direct Sample.clock
      (map on_data chunks) in
  classify (nth 9 Sample.happy_chunks EmptyString) = Positive
  /\ stage (session (firstn 9 Sample.happy_chunks)) = 9
  /\ stage (session Sample.happy_chunks) = 9
  /\ leading_positives Sample.happy_chunks = 10
  /\ List.length (transmitted (socket (session Sample.happy_chunks))) = 9.
Proof.
  repeat split; reflexivity.
Qed.

(** C2, as the code has it.  When a delivery the handler takes as negative
    arrives while the Promise is pending, the handler calls [end()] at once
    and rejects with the message [SMTP Error: ] followed by the delivery;
    the stage is left alone, the outcome never changes afterwards, and what
    is transmitted in the whole session is the commands below the stage
    reached.  The rejection holds the server's text and nothing else. *)
Theorem negative_reply_ends_socket_and_rejects :
  forall this mailOptions now messageId commands,
    envelope this mailOptions now = JS.Return (messageId, commands) ->
    forall before response after,
      let s := _sendViaHostinger this mailOptions now before in
      promise s = JS.Pending ->
      positive_reply response = false ->
      let s1 := _sendViaHostinger this mailOptions now
                  (before ++ [on_data response]) in
      let s2 := _sendViaHostinger this mailOptions now
                  (before ++ on_data response :: after) in
      socket s1 = (socket s ++ [end_])%list
      /\ stage s1 = stage s
      /\ promise s1 = JS.Rejected (JS.Error ("SMTP Error: " ++ response))
      /\ promise s2 = promise s1
      /\ transmitted (socket s2) = firstn (stage s) commands.
Proof.
  intros this mailOptions now messageId commands H before response after
    s Hp Hneg s1 s2.
  pose proof (session_consistent _ _ _ _ _ before H) as Hc. fold s in Hc.
  destruct (pending_transmitted _ _ Hc Hp) as [Hopen Ht].
  assert (E1 : s1 = data_handler commands response s).
  { subst s1 s. rewrite !(session_unfold _ _ _ _ _ _ H).
    now rewrite run_snoc. }
  assert (E2 : s2 = run commands messageId s1 after).
  { subst s2 s1. rewrite !(session_unfold _ _ _ _ _ _ H).
    rewrite <- run_app, <- app_assoc. reflexivity. }
  assert (D : data_handler commands response s
              = {| stage := stage s;
                   socket := socket s ++ [end_];
                   promise := JS.Rejected
                                (JS.Error ("SMTP Error: " ++ response));
                   uncaught := uncaught s |}).
  { unfold data_handler. rewrite Hneg, Hp. reflexivity. }
  rewrite D in E1.
  repeat split.
  - now rewrite E1.
  - now rewrite E1.
  - now rewrite E1.
  - rewrite E2. apply settled_run. now rewrite E1.
  - rewrite E2, transmitted_frozen.
    + rewrite E1. simpl. rewrite transmitted_before_end by exact Hopen.
      simpl. now rewrite app_nil_r.
    + rewrite E1. simpl. rewrite ended_app. simpl. apply orb_true_r.
Qed.

Lemma negative_reply_ends_socket_and_rejects_witness :
  let session := _sendViaHostinger Sample.options Sample.direct Sample.clock in
  let before := [on_data (Sample.reply "220"); on_data (Sample.reply "250")] in
  let response := "535 Authentication failed" ++ JS.CRLF in
  let after := [on_data (Sample.reply "250"); on_close] in
  socket (session (before ++ [on_data response])%list)
  = (socket (session before) ++ [end_])%list
  /\ stage (session (before ++ [on_data response])%list) = stage (session before)
  /\ promise (session (before ++ [on_data response])%list)
     = JS.Rejected (JS.Error ("SMTP Error: " ++ response))
  /\ promise (session (before ++ on_data response :: after)%list)
     = promise (session (before ++ [on_data response])%list)
  /\ transmitted (socket (session (before ++ on_data response :: after)%list))
     = firstn (stage (session before))
         (Spec.envelope "info@example.com" "s3cret" Sample.direct
            "<1700000000000@example.com>").
Proof.
  apply (negative_reply_ends_socket_and_rejects
           Sample.options Sample.direct Sample.clock
           "<1700000000000@example.com>"
           (Spec.envelope "info@example.com" "s3cret" Sample.direct
              "<1700000000000@example.com>")
           eq_refl
           [on_data (Sample.reply "220"); on_data (Sample.reply "250")]
           ("535 Authentication failed" ++ JS.CRLF)
           [on_data (Sample.reply "250"); on_close]);
    reflexivity.
Defined.

(** C2 as stated fails on the stage: the same refusal received at stage 0
    and at stage 2 gives one and the same outcome, which therefore cannot
    tell the stage. *)
Lemma rejection_does_not_carry_the_stage :
  let session := _sendViaHostinger Sample.options Sample.direct Sample.clock in
  let refusal := on_data ("550 Relay denied" ++ JS.CRLF) in
  let at0 := session [refusal] in
  let at2 := session [on_data (Sample.reply "220");
                      on_data (Sample.reply "250"); refusal] in
  stage at0 = 0 /\ stage at2 = 2
  /\ promise at0 = JS.Rejected (JS.Error ("SMTP Error: 550 Relay denied" ++ JS.CRLF))
  /\ promise at2 = promise at0.
Proof.
  repeat split; reflexivity.
Qed.

(** C3, as the code has it.  The handler keeps no buffer: each delivery is
    judged on its own by its first character ([2] or [3] is positive, any
    other character and the empty delivery are negative), so the rest of
    the delivery, complete line or not, one reply or several, changes
    neither the stage nor the calls made on the socket, and one delivery
    advances the stage by at most one. *)
Theorem each_delivery_is_classified_by_its_first_character :
  (forall c rest,
      positive_reply (String c rest) = Ascii.eqb c "2" || Ascii.eqb c "3")
  /\ positive_reply EmptyString = false
  /\ forall commands c rest rest' s,
      stage (data_handler commands (String c rest) s)
      = stage (data_handler commands (String c rest') s)
      /\ socket (data_handler commands (String c rest) s)
         = socket (data_handler commands (String c rest') s)
      /\ stage (data_handler commands (String c rest) s) <= S (stage s).
Proof.
  assert (P : forall c rest,
             positive_reply (String c rest)
             = Ascii.eqb c "2" || Ascii.eqb c "3").
  { intros c rest. unfold positive_reply, JS.startsWith.
    cbn [String.prefix].
    assert (P0 : String.prefix EmptyString rest = true)
      by (destruct rest; reflexivity).
    rewrite P0.
    destruct (ascii_dec "2" c) as [E|E]; destruct (ascii_dec "3" c) as [E'|E'];
      try (subst c; try discriminate; reflexivity).
    destruct (Ascii.eqb_spec c "2"); [congruence|].
    destruct (Ascii.eqb_spec c "3"); [congruence|].
    reflexivity. }
  split; [exact P|]. split; [reflexivity|].
  intros commands c rest rest' s.
  unfold data_handler. rewrite !P.
  destruct (Ascii.eqb c "2" || Ascii.eqb c "3"); simpl.
  - destruct (_ <? _)%nat; simpl; repeat split; auto.
  - repeat split; auto.
Qed.

(** C3 as stated fails: a fragment with no CRLF is taken as positive and
    advances the stage; two replies in one delivery advance it once, the
    same two replies in two deliveries advance it twice; and a greeting
    followed by a refusal is rejected when split and still pending when
    batched. *)
Lemma split_and_batched_replies_differ :
  let session := _sendViaHostinger Sample.options Sample.direct Sample.clock in
  let greeting := Sample.reply "220" in
  let refusal := "550 Relay denied" ++ JS.CRLF in
  classify "25" = Positive
  /\ stage (session [on_data "25"]) = 1
  /\ stage (session [on_data (greeting ++ Sample.reply "250")]) = 1
  /\ stage (session [on_data greeting; on_data (Sample.reply "250")]) = 2
  /\ promise (session [on_data (greeting ++ refusal)]) = JS.Pending
  /\ promise (session [on_data greeting; on_data refusal])
     = JS.Rejected (JS.Error ("SMTP Error: " ++ refusal)).
Proof.
  repeat split; reflexivity.
Qed.

(** The close handler on a pending session. *)
Lemma close_while_pending :
  forall this mailOptions now messageId commands,
    envelope this mailOptions now = JS.Return (messageId, commands) ->
    forall events,
      let s := _sendViaHostinger this mailOptions now events in
      promise s = JS.Pending ->
      let s' := _sendViaHostinger this mailOptions now (events ++ [on_close]) in
      promise s'
      = (if (8 <=? stage s)%nat then JS.Fulfilled messageId
         else JS.Rejected (JS.Error "SMTP connection closed prematurely"))
      /\ stage s' = stage s
      /\ socket s' = socket s
      /\ transmitted (socket s') = firstn (stage s) commands.
Proof.
  intros this mailOptions now messageId commands H events s Hp s'.
  pose proof (session_consistent _ _ _ _ _ events H) as Hc. fold s in Hc.
  destruct (pending_transmitted _ _ Hc Hp) as [_ Ht].
  assert (E : s' = close_handler commands messageId s).
  { subst s' s. rewrite !(session_unfold _ _ _ _ _ _ H).
    now rewrite run_snoc. }
  rewrite E. unfold close_handler. simpl.
  rewrite (envelope_length _ _ _ _ _ H), Hp. simpl.
  repeat split; assumption.
Qed.

(** C4, as the code has it.  When [close] arrives while the Promise is
    pending, the session is fulfilled with the message identifier if the
    stage is at least 8, and otherwise rejected with the fixed message
    [SMTP connection closed prematurely]; the handler touches neither the
    stage nor the socket.  What has been transmitted by then is the commands
    below the stage, so QUIT, the command at index 8, has gone out only when
    the stage is 9. *)
Theorem close_settles_by_stage_threshold :
  forall this mailOptions now messageId commands,
    envelope this mailOptions now = JS.Return (messageId, commands) ->
    forall events,
      let s := _sendViaHostinger this mailOptions now events in
      promise s = JS.Pending ->
      let s' := _sendViaHostinger this mailOptions now (events ++ [on_close]) in
      promise s'
      = (if (8 <=? stage s)%nat then JS.Fulfilled messageId
         else JS.Rejected (JS.Error "SMTP connection closed prematurely"))
      /\ stage s' = stage s
      /\ socket s' = socket s
      /\ transmitted (socket s') = firstn (stage s) commands.
Proof.
  intros this mailOptions now messageId commands H events s Hp s'.
  now apply close_while_pending.
Qed.

Lemma close_settles_by_stage_threshold_witness :
  let session := _sendViaHostinger Sample.options Sample.direct Sample.clock in
  let events := [on_data (Sample.reply "220"); on_data (Sample.reply "250")] in
  promise (session (events ++ [on_close])%list)
  = (if (8 <=? stage (session events))%nat
     then JS.Fulfilled "<1700000000000@example.com>"
     else JS.Rejected (JS.Error "SMTP connection closed prematurely"))
  /\ stage (session (events ++ [on_close])%list) = stage (session events)
  /\ socket (session (events ++ [on_close])%list) = socket (session events)
  /\ transmitted (socket (session (events ++ [on_close])%list))
     = firstn (stage (session events))
         (Spec.envelope "info@example.com" "s3cret" Sample.direct
            "<1700000000000@example.com>").
Proof.
  apply (close_settles_by_stage_threshold
           Sample.options Sample.direct Sample.clock
           "<1700000000000@example.com>"
           (Spec.envelope "info@example.com" "s3cret" Sample.direct
              "<1700000000000@example.com>")
           eq_refl
           [on_data (Sample.reply "220"); on_data (Sample.reply "250")]);
    reflexivity.
Defined.

(** C4 as stated fails twice.  After eight positive replies the stage is 8
    and a close fulfils the Promise although QUIT has not been written;
    and a close at stage 0 and one at stage 1 reject with the same value,
    which carries no stage. *)
Lemma close_at_stage_eight_succeeds_without_QUIT :
  let session := _sendViaHostinger Sample.options Sample.direct Sample.clock in
  let eight := map on_data (firstn 8 Sample.happy_chunks) in
  stage (session (eight ++ [on_close])%list) = 8
  /\ promise (session (eight ++ [on_close])%list)
     = JS.Fulfilled "<1700000000000@example.com>"
  /\ existsb (String.eqb ("QUIT" ++ JS.CRLF))
       (writes (socket (session (eight ++ [on_close])%list))) = false
  /\ stage (session [on_close]) = 0
  /\ stage (session [on_data (Sample.reply "220"); on_close]) = 1
  /\ promise (session [on_close])
     = JS.Rejected (JS.Error "SMTP connection closed prematurely")
  /\ promise (session [on_data (Sample.reply "220"); on_close])
     = promise (session [on_close]).
Proof.
  repeat split; reflexivity.
Qed.

Lemma count_all_positive (chunks : list string) :
  forallb positive_reply chunks = true ->
  count_positives chunks = List.length chunks
  /\ leading_positives chunks = List.length chunks.
Proof.
  unfold count_positives.
  induction chunks as [|chunk chunks IH]; simpl; [auto|].
  destruct (positive_reply chunk); simpl; [|discriminate].
  intros H. destruct (IH H) as [IH1 IH2]. now rewrite IH1, IH2.
Qed.

Lemma positive_data_keeps_promise commands messageId (chunks : list string) :
  forallb positive_reply chunks = true ->
  forall s,
    promise (run commands messageId s (map on_data chunks)) = promise s.
Proof.
  unfold run.
  induction chunks as [|chunk chunks IH]; simpl; [reflexivity|].
  destruct (positive_reply chunk) eqn:Hpos; simpl; [|discriminate].
  intros H s. rewrite IH by exact H.
  unfold data_handler. rewrite Hpos.
  destruct (_ <? _)%nat; reflexivity.
Qed.

(** C5, as the code has it.  After nine positive deliveries (the greeting
    through the acknowledgment of the message content) the stage is 9 and
    all nine commands, QUIT included, have been transmitted; a close that
    arrives then, with QUIT unacknowledged, fulfils the Promise with the
    message identifier. *)
Theorem close_after_nine_positive_replies_succeeds :
  forall this mailOptions now messageId commands,
    envelope this mailOptions now = JS.Return (messageId, commands) ->
    forall chunks,
      List.length chunks = 9 ->
      forallb positive_reply chunks = true ->
      let s := _sendViaHostinger this mailOptions now
                 (map on_data chunks ++ [on_close]) in
      stage s = 9
      /\ transmitted (socket s) = commands
      /\ promise s = JS.Fulfilled messageId.
Proof.
  intros this mailOptions now messageId commands H chunks Hlen Hpos s.
  pose proof (envelope_length _ _ _ _ _ H) as Hn.
  destruct (count_all_positive _ Hpos) as [Hcount _].
  pose (s9 := _sendViaHostinger this mailOptions now (map on_data chunks)).
  assert (Hstage : stage s9 = 9).
  { subst s9. rewrite (session_unfold _ _ _ _ _ _ H).
    rewrite stage_data_only by (simpl; lia).
    rewrite Hn, Hcount, Hlen. reflexivity. }
  assert (Hpend : promise s9 = JS.Pending).
  { subst s9. rewrite (session_unfold _ _ _ _ _ _ H).
    now rewrite positive_data_keeps_promise. }
  destruct (close_while_pending _ _ _ _ _ H
              (map on_data chunks) Hpend) as (Hp & Hs & _ & Ht).
  fold s9 in Hp, Hs, Ht. fold s in Hp, Hs, Ht.
  rewrite Hstage in *. repeat split.
  - exact Hs.
  - rewrite Ht. rewrite <- Hn. apply firstn_all.
  - exact Hp.
Qed.

Lemma close_after_nine_positive_replies_succeeds_witness :
  let s := _sendViaHostinger Sample.options Sample.routed Sample.clock
             (map on_data (firstn 9 Sample.happy_chunks) ++ [on_close]) in
  stage s = 9
  /\ transmitted (socket s)
     = Spec.envelope "info@example.com" "s3cret" Sample.routed
         "<1700000000000@example.com>>"
  /\ promise s = JS.Fulfilled "<1700000000000@example.com>>".
Proof.
  apply (close_after_nine_positive_replies_succeeds
           Sample.options Sample.routed Sample.clock
           "<1700000000000@example.com>>"
           (Spec.envelope "info@example.com" "s3cret" Sample.routed
              "<1700000000000@example.com>>")
           eq_refl (firstn 9 Sample.happy_chunks));
    reflexivity.
Defined.

(** C5 as stated fails: the server acknowledges the message content (the
    ninth positive reply) and closes without answering QUIT; the stage is
    9, not 8, and the Promise is fulfilled, not rejected. *)
Lemma close_before_QUIT_is_acknowledged_succeeds :
  let s := _sendViaHostinger Sample.options Sample.direct Sample.clock
             (map on_data (firstn 9 Sample.happy_chunks) ++ [on_close]) in
  firstn 9 Sample.happy_chunks
  = map Sample.reply
      ["220"; "250"; "334"; "334"; "235"; "250"; "250"; "354"; "250"]
  /\ stage s = 9
  /\ promise s = JS.Fulfilled "<1700000000000@example.com>".
Proof.
  repeat split; reflexivity.
Qed.

Lemma session_app this mailOptions now messageId commands first later :
  envelope this mailOptions now = JS.Return (messageId, commands) ->
  _sendViaHostinger this mailOptions now (first ++ later)
  = run commands messageId (_sendViaHostinger this mailOptions now first) later.
Proof.
  intros H. rewrite !(session_unfold _ _ _ _ _ _ H). apply run_app.
Qed.

Lemma session_without_handlers this mailOptions now e events :
  envelope this mailOptions now = JS.Throw e ->
  _sendViaHostinger this mailOptions now events
  = if port_accepted this
    then {| stage := 0; socket := socket (opened this);
            promise := JS.Rejected e; uncaught := first_error events |}
    else {| stage := 0; socket := [];
            promise := JS.Rejected e; uncaught := None |}.
Proof.
  intros H. unfold _sendViaHostinger. now rewrite H.
Qed.

Lemma session_thrown_promise this mailOptions now e events :
  envelope this mailOptions now = JS.Throw e ->
  promise (_sendViaHostinger this mailOptions now events) = JS.Rejected e.
Proof.
  intros H. rewrite (session_without_handlers _ _ _ _ _ H).
  destruct (port_accepted this); reflexivity.
Qed.

Lemma first_error_unchanged (events : list Event) (e : Event) :
  (forall err, e <> on_error err) ->
  first_error (events ++ [e]) = first_error events.
Proof.
  intros He. induction events as [|x events IH]; simpl.
  - destruct e; try reflexivity. now destruct (He err).
  - destruct x; auto.
Qed.

Lemma terminal_settles commands messageId (s : Session) (e : Event) :
  terminal e = true ->
  JS.settled (promise (handle commands messageId s e)) = true.
Proof.
  destruct e as [chunk| |err|]; simpl; intros H.
  - unfold data_handler. apply negb_true_iff in H. rewrite H. simpl.
    apply settle_reject.
  - apply settle_reject.
  - apply settle_reject.
  - destruct (_ <=? _)%nat; [apply settle_resolve | apply settle_reject].
Qed.

Lemma settled_close_is_identity commands messageId (s : Session) :
  JS.settled (promise s) = true ->
  handle commands messageId s on_close = s.
Proof.
  destruct s as [k calls p x]; simpl. unfold close_handler; simpl.
  intros H. destruct (_ <=? _)%nat; destruct p;
    try discriminate; reflexivity.
Qed.

Lemma settled_error_is_identity commands messageId (s : Session) err :
  JS.settled (promise s) = true ->
  handle commands messageId s (on_error err) = s.
Proof.
  destruct s as [k calls p x]; simpl. unfold error_handler; simpl.
  intros H. destruct p; try discriminate; reflexivity.
Qed.

(** C7, as the code has it.  In every session, a terminal event (close,
    timeout, error, or a delivery taken as negative) that arrives while the
    Promise is pending settles it, and once it is settled no sequence of
    further events changes the outcome.  When the handlers are registered,
    a [close] or [error] on a settled session changes nothing at all, while
    a timeout or a delivery still runs its handler, settled or not: a
    timeout and a negative delivery call [end()], a positive delivery below
    stage 9 advances the stage and calls [write].  When the executor threw
    before registering the handlers, the session is rejected with what was
    thrown and stays so; a [close] passes unnoticed, and the first [error]
    on its open socket is caught by nothing. *)
Theorem first_terminal_event_fixes_the_outcome :
  forall this mailOptions now events,
    let session := _sendViaHostinger this mailOptions now in
    (forall e,
        promise (session events) = JS.Pending ->
        terminal e = true ->
        JS.settled (promise (session (events ++ [e])%list)) = true)
    /\ (forall later,
           JS.settled (promise (session events)) = true ->
           promise (session (events ++ later)%list) = promise (session events))
    /\ (forall messageId commands,
           envelope this mailOptions now = JS.Return (messageId, commands) ->
           (forall err,
               JS.settled (promise (session events)) = true ->
               session (events ++ [on_close])%list = session events
               /\ session (events ++ [on_error err])%list = session events)
           /\ socket (session (events ++ [on_timeout])%list)
              = (socket (session events) ++ [end_])%list
           /\ (forall chunk,
                  positive_reply chunk = false ->
                  socket (session (events ++ [on_data chunk])%list)
                  = (socket (session events) ++ [end_])%list)
           /\ (forall chunk,
                  positive_reply chunk = true ->
                  stage (session events) < 9 ->
                  stage (session (events ++ [on_data chunk])%list)
                  = S (stage (session events))
                  /\ socket (session (events ++ [on_data chunk])%list)
                     = (socket (session events)
                        ++ [write (nth (stage (session events)) commands
                                     EmptyString)])%list))
    /\ (forall thrown,
           envelope this mailOptions now = JS.Throw thrown ->
           promise (session events) = JS.Rejected thrown
           /\ session (events ++ [on_close])%list = session events
           /\ uncaught (session events)
              = if port_accepted this then first_error events else None).
Proof.
  intros this mailOptions now events session. subst session.
  destruct (envelope this mailOptions now) as [[messageId commands]|e] eqn:H.
  - split; [|split; [|split]].
    + intros e _ Ht. rewrite (session_app _ _ _ _ _ _ _ H).
      unfold run. cbn [fold_left]. now apply terminal_settles.
    + intros later Hs. rewrite (session_app _ _ _ _ _ _ _ H).
      now apply settled_run.
    + intros messageId' commands' E. inversion E; subst messageId' commands'.
      pose proof (envelope_length _ _ _ _ _ H) as Hlen.
      split; [|split; [|split]].
      * intros err Hs. rewrite !(session_app _ _ _ _ _ _ _ H).
        unfold run. cbn [fold_left].
        split; [now apply settled_close_is_identity
               | now apply settled_error_is_identity].
      * rewrite (session_app _ _ _ _ _ _ _ H). reflexivity.
      * intros chunk Hneg. rewrite (session_app _ _ _ _ _ _ _ H).
        unfold run. cbn [fold_left handle]. unfold data_handler.
        now rewrite Hneg.
      * intros chunk Hpos Hst. rewrite (session_app _ _ _ _ _ _ _ H).
        unfold run. cbn [fold_left handle]. unfold data_handler.
        rewrite Hpos, Hlen.
        apply Nat.ltb_lt in Hst. rewrite Hst. split; reflexivity.
    + intros thrown E. discriminate.
  - split; [|split; [|split]].
    + intros e' Hp. rewrite (session_thrown_promise _ _ _ _ _ H) in Hp.
      discriminate.
    + intros later _. now rewrite !(session_thrown_promise _ _ _ _ _ H).
    + intros messageId commands E. discriminate.
    + intros thrown E. inversion E; subst thrown.
      rewrite !(session_without_handlers _ _ _ _ _ H).
      destruct (port_accepted this); repeat split.
      rewrite first_error_unchanged; [reflexivity | discriminate].
Qed.

Lemma first_terminal_event_fixes_the_outcome_witness :
  let session := _sendViaHostinger Sample.options Sample.direct Sample.clock in
  let events := [on_data (Sample.reply "220"); on_timeout] in
  JS.settled (promise (session [on_data (Sample.reply "220")])) = false
  /\ promise (session events)
     = JS.Rejected (JS.Error "SMTP connection timeout")
  /\ promise (session (events ++ [on_data (Sample.reply "250"); on_close;
                                  on_error (JS.SocketError "EPIPE"); on_close])%list)
     = promise (session events)
  /\ session (events ++ [on_close])%list = session events
  /\ stage (session (events ++ [on_data (Sample.reply "250")])%list) = 2.
Proof.
  pose proof (first_terminal_event_fixes_the_outcome
                Sample.options Sample.direct Sample.clock
                [on_data (Sample.reply "220"); on_timeout])
    as (_ & Hlater & Hhandlers & _).
  destruct (Hhandlers "<1700000000000@example.com>"
              (Spec.envelope "info@example.com" "s3cret" Sample.direct
                 "<1700000000000@example.com>") eq_refl)
    as (Hnoop & _ & _ & Hpositive).
  split; [reflexivity|]. split; [reflexivity|]. split; [|split].
  - apply (Hlater [on_data (Sample.reply "250"); on_close;
                   on_error (JS.SocketError "EPIPE"); on_close]).
    reflexivity.
  - apply (Hnoop JS.TypeError). reflexivity.
  - apply (Hpositive (Sample.reply "250")); [reflexivity | simpl; lia].
Defined.

(** C7 as stated fails on the events that are no outcome: after a refusal
    has settled the session, a positive delivery still advances the stage
    and calls [write]; after a close has fulfilled it, a timeout still calls
    [end()]; the outcome is the same in both.  And when the envelope could
    not be built, an error on the socket that was opened is caught by
    nothing. *)
Lemma later_events_still_run_their_handlers :
  let session := _sendViaHostinger Sample.options Sample.direct Sample.clock in
  let refused := [on_data (Sample.reply "220"); on_data "550 no"] in
  let closed := (Sample.happy ++ [on_close])%list in
  JS.settled (promise (session refused)) = true
  /\ stage (session refused) = 1
  /\ stage (session (refused ++ [on_data (Sample.reply "250")])%list) = 2
  /\ List.length (writes (socket (session refused))) = 1
  /\ List.length
       (writes (socket (session (refused ++ [on_data (Sample.reply "250")])%list)))
     = 2
  /\ promise (session (refused ++ [on_data (Sample.reply "250")])%list)
     = promise (session refused)
  /\ promise (session closed) = JS.Fulfilled "<1700000000000@example.com>"
  /\ ended (socket (session closed)) = false
  /\ ended (socket (session (closed ++ [on_timeout])%list)) = true
  /\ promise (session (closed ++ [on_timeout])%list) = promise (session closed)
  /\ uncaught
       (_sendViaHostinger Sample.options Sample.no_sender Sample.clock
          [on_error (JS.SocketError "ECONNRESET")])
     = Some (JS.SocketError "ECONNRESET").
Proof.
  repeat split; reflexivity.
Qed.

(** C9, as the code has it.  Outside local mode nothing is checked before
    the connection is asked for.  A port that [tls.connect] does not accept
    (the variable not set, not a number, or above 65535) makes it throw: the
    session is rejected with that RangeError and no socket exists.  With an
    accepted port, a request without sender text, or a configuration without
    user or password, is rejected with the TypeError thrown while the
    envelope is built: by then the socket has been opened and its timer
    armed, and nothing is ever written to it.  A request without recipient
    is not rejected: the envelope is built with [RCPT TO:<undefined>] and
    the session waits for the server. *)
Theorem absent_sender_or_credentials_rejected_after_connect :
  forall this mailOptions now events emailStore,
    localMode this = false ->
    (port_accepted this = false ->
     sendMail this mailOptions now events emailStore
     = (emailStore, [], JS.Rejected JS.RangeError))
    /\ (port_accepted this = true ->
        from mailOptions = None \/ user (auth this) = None
        \/ pass (auth this) = None ->
        sendMail this mailOptions now events emailStore
        = (emailStore,
           [connect (host this) (port this) (timeout_or_default this);
            setTimeout (timeout_or_default this)],
           JS.Rejected JS.TypeError))
    /\ (forall sender_text u p,
           port_accepted this = true ->
           from mailOptions = Some sender_text ->
           user (auth this) = Some u ->
           pass (auth this) = Some p ->
           to mailOptions = None ->
           exists messageId commands,
             envelope this mailOptions now = JS.Return (messageId, commands)
             /\ nth 5 commands EmptyString = "RCPT TO:<undefined>" ++ JS.CRLF
             /\ sendMail this mailOptions now [] emailStore
                = (emailStore, socket (opened this), JS.Pending)).
Proof.
  intros this mailOptions now events emailStore Hmode. split; [|split].
  - intros Hport. unfold sendMail, _sendViaHostinger. rewrite Hmode.
    rewrite (envelope_refused _ _ _ Hport), Hport. reflexivity.
  - intros Hport Habsent. unfold sendMail, _sendViaHostinger. rewrite Hmode.
    rewrite (envelope_after_connect _ _ _ Hport), Hport.
    unfold make_messageId, make_commands.
    destruct (from mailOptions) as [f|]; simpl;
      [destruct (user (auth this)) as [u|]; simpl;
       [destruct (pass (auth this)) as [p|]; simpl|]|];
      try reflexivity.
    destruct Habsent as [A|[A|A]]; discriminate.
  - intros f u p Hport Hf Hu Hp Hto.
    unfold sendMail, _sendViaHostinger. rewrite Hmode.
    rewrite (envelope_after_connect _ _ _ Hport).
    unfold make_messageId, make_commands.
    rewrite Hf, Hu, Hp, Hto. simpl JS.bind.
    eexists. eexists. split; [reflexivity|]. split; reflexivity.
Qed.

Lemma absent_sender_or_credentials_rejected_after_connect_witness :
  sendMail Sample.options_without_port Sample.direct Sample.clock
    Sample.happy []
  = ([], [], JS.Rejected JS.RangeError)
  /\ sendMail Sample.options Sample.no_sender Sample.clock Sample.happy []
     = ([],
        [connect (Some "smtp.hostinger.com") (Some 465%N) 10000%N;
         setTimeout 10000%N],
        JS.Rejected JS.TypeError)
  /\ exists messageId commands,
      envelope Sample.options Sample.no_recipient Sample.clock
      = JS.Return (messageId, commands)
      /\ nth 5 commands EmptyString = "RCPT TO:<undefined>" ++ JS.CRLF
      /\ sendMail Sample.options Sample.no_recipient Sample.clock [] []
         = ([], socket (opened Sample.options), JS.Pending).
Proof.
  split; [|split].
  - apply (absent_sender_or_credentials_rejected_after_connect
             Sample.options_without_port Sample.direct Sample.clock
             Sample.happy [] eq_refl).
    reflexivity.
  - apply (absent_sender_or_credentials_rejected_after_connect
             Sample.options Sample.no_sender Sample.clock Sample.happy []
             eq_refl).
    + reflexivity.
    + left. reflexivity.
  - apply (proj2 (proj2 (absent_sender_or_credentials_rejected_after_connect
                           Sample.options Sample.no_recipient Sample.clock
                           [] [] eq_refl))
             "info@example.com" "info@example.com" "s3cret");
      reflexivity.
Defined.

(** C9 as stated fails.  A request without recipient goes through the whole
    dialogue and is fulfilled, with [RCPT TO:<undefined>] on the wire; a
    request without sender is rejected only after the connection has been
    asked for; and in local mode a request without sender is stored and
    fulfilled. *)
Lemma absent_recipient_is_sent_and_absent_sender_connects_first :
  let sent := sendMail Sample.options Sample.no_recipient Sample.clock
                (Sample.happy ++ [on_close]) [] in
  snd sent = JS.Fulfilled "<1700000000000@example.com>"
  /\ existsb (String.eqb ("RCPT TO:<undefined>" ++ JS.CRLF))
       (transmitted (snd (fst sent))) = true
  /\ snd (fst (sendMail Sample.options Sample.no_sender Sample.clock [] []))
     = [connect (Some "smtp.hostinger.com") (Some 465%N) 10000%N;
        setTimeout 10000%N]
  /\ snd (sendMail Sample.local_options Sample.no_sender Sample.clock [] [])
     = JS.Fulfilled "1700000000000".
Proof.
  repeat split; reflexivity.
Qed.

(** ** The pattern matcher and the shape it decides *)

Lemma skip_run (class : ascii -> bool) (a b : string) :
  Pattern.all class a = true ->
  (forall c r, b = String c r -> class c = false) ->
  Pattern.skip class (a ++ b) = b.
Proof.
  intros Ha Hb. induction a as [|x a IH]; simpl in *.
  - destruct b as [|c r]; [reflexivity|].
    simpl. now rewrite (Hb c r eq_refl).
  - apply andb_true_iff in Ha. destruct Ha as [Hx Ha].
    rewrite Hx. now apply IH.
Qed.

Lemma skip_splits (class : ascii -> bool) (s : string) :
  exists a,
    s = a ++ Pattern.skip class s /\ Pattern.all class a = true.
Proof.
  induction s as [|c s IH]; simpl.
  - exists EmptyString. split; reflexivity.
  - destruct (class c) eqn:Hc.
    + destruct IH as (a & E & Ha). exists (String c a). simpl.
      rewrite Hc, Ha. split; [now rewrite <- E | reflexivity].
    + exists EmptyString. split; reflexivity.
Qed.

Lemma some_of_run (class : ascii -> bool) (a b : string) :
  a <> EmptyString ->
  Pattern.all class a = true ->
  (forall c r, b = String c r -> class c = false) ->
  Pattern.some_of class (a ++ b) = Some b.
Proof.
  intros Hne Ha Hb. destruct a as [|x a]; [congruence|].
  simpl in *. apply andb_true_iff in Ha. destruct Ha as [Hx Ha].
  rewrite Hx. f_equal. now apply skip_run.
Qed.

Lemma some_of_splits (class : ascii -> bool) (s rest : string) :
  Pattern.some_of class s = Some rest ->
  exists a,
    s = a ++ rest /\ a <> EmptyString /\ Pattern.all class a = true.
Proof.
  destruct s as [|c s]; simpl; [discriminate|].
  destruct (class c) eqn:Hc; [|discriminate].
  intros H. inversion H; subst. clear H.
  destruct (skip_splits class s) as (a & E & Ha).
  exists (String c a). simpl. rewrite Hc, Ha.
  repeat split; [now rewrite <- E | discriminate].
Qed.

Lemma literal_inv (c : ascii) (s rest : string) :
  Pattern.literal c s = Some rest -> s = String c rest.
Proof.
  destruct s as [|d s]; simpl; [discriminate|].
  destruct (Ascii.eqb_spec c d); [|discriminate].
  intros H. inversion H. now subst.
Qed.

(** The matcher accepts exactly the strings of the pattern's shape. *)
Lemma messageId_pattern_shape (s : string) :
  Pattern.messageId s = true <-> Pattern.Shape s.
Proof.
  unfold Pattern.messageId, Pattern.Shape. split.
  - destruct (Pattern.literal "<" s) as [s1|] eqn:L1; simpl; [|discriminate].
    destruct (Pattern.some_of Pattern.digit s1) as [s2|] eqn:D; simpl;
      [|discriminate].
    destruct (Pattern.literal "@" s2) as [s3|] eqn:L2; simpl; [|discriminate].
    destruct (Pattern.some_of Pattern.domain_char s3) as [s4|] eqn:M; simpl;
      [|discriminate].
    destruct (Pattern.literal ">" s4) as [[|x s5]|] eqn:L3; simpl;
      try discriminate.
    intros _.
    apply literal_inv in L1, L2, L3.
    apply some_of_splits in D, M.
    destruct D as (ds & E1 & N1 & A1). destruct M as (dom & E2 & N2 & A2).
    exists ds, dom. subst. repeat split; assumption.
  - intros (ds & dom & E & N1 & A1 & N2 & A2). subst s.
    cbn [Pattern.literal Pattern.then_]. rewrite Ascii.eqb_refl.
    cbn [Pattern.then_].
    rewrite some_of_run; [|assumption|assumption|].
    + cbn [Pattern.then_ Pattern.literal]. rewrite Ascii.eqb_refl.
      cbn [Pattern.then_].
      rewrite some_of_run; [|assumption|assumption|].
      * reflexivity.
      * intros c r E. inversion E. reflexivity.
    + intros c r E. inversion E. reflexivity.
Qed.

(** ** The identifier of the requests [sendEmail] makes *)

Lemma string_of_uint_digits (d : Decimal.uint) :
  Pattern.all Pattern.digit (NilEmpty.string_of_uint d) = true.
Proof.
  induction d; simpl; auto.
Qed.

Lemma toString_digits (n : N) :
  JS.toString n <> EmptyString
  /\ Pattern.all Pattern.digit (JS.toString n) = true.
Proof.
  unfold JS.toString. split; [|apply string_of_uint_digits].
  destruct n as [|p]; [discriminate|].
  simpl. pose proof (Unsigned.to_uint_nonnil p) as Hp.
  destruct (Pos.to_uint p); simpl; congruence.
Qed.

Lemma domain_skips_prefix (a b : string) :
  Pattern.all Pattern.not_at a = true ->
  Spec.domain (a ++ b) = Spec.domain b.
Proof.
  induction a as [|c a IH]; simpl; [reflexivity|].
  unfold Pattern.not_at at 1. intros H.
  apply andb_true_iff in H. destruct H as [Hc Ha].
  apply negb_true_iff in Hc. rewrite Hc. now apply IH.
Qed.

Lemma until_at_without_at (a : string) :
  Pattern.all Pattern.not_at a = true -> Spec.until_at a = a.
Proof.
  induction a as [|c a IH]; simpl; [reflexivity|].
  unfold Pattern.not_at at 1. intros H.
  apply andb_true_iff in H. destruct H as [Hc Ha].
  apply negb_true_iff in Hc. rewrite Hc. now rewrite IH.
Qed.

Lemma all_app (class : ascii -> bool) (a b : string) :
  Pattern.all class (a ++ b) = Pattern.all class a && Pattern.all class b.
Proof.
  induction a as [|c a IH]; simpl; [reflexivity|].
  now rewrite IH, andb_assoc.
Qed.

Lemma skip_keeps_suffix (class : ascii -> bool) (x y : string) :
  (forall c r, y = String c r -> class c = false) ->
  exists z, Pattern.skip class (x ++ y) = z ++ y.
Proof.
  intros Hy. induction x as [|c x IH]; simpl.
  - exists EmptyString. destruct y as [|c r]; [reflexivity|].
    simpl. now rewrite (Hy c r eq_refl).
  - destruct (class c); [exact IH|].
    now exists (String c x).
Qed.

(** No text that ends with two closing brackets matches the pattern. *)
Lemma doubled_bracket_never_matches (digits domain_text : string) :
  digits <> EmptyString ->
  Pattern.all Pattern.digit digits = true ->
  Pattern.messageId
    (String "<" (digits ++ String "@" (domain_text ++ ">>"))) = false.
Proof.
  intros Hne Hd. unfold Pattern.messageId.
  cbn [Pattern.literal Pattern.then_]. rewrite Ascii.eqb_refl.
  cbn [Pattern.then_].
  rewrite some_of_run; [|assumption|assumption|].
  2:{ intros c r E. inversion E. reflexivity. }
  cbn [Pattern.then_ Pattern.literal]. rewrite Ascii.eqb_refl.
  cbn [Pattern.then_].
  destruct domain_text as [|c rest]; [reflexivity|].
  cbn [append Pattern.some_of].
  destruct (Pattern.domain_char c); [|reflexivity].
  destruct (skip_keeps_suffix Pattern.domain_char rest ">>") as [z Hz].
  { intros c' r E. inversion E. reflexivity. }
  rewrite Hz. cbn [Pattern.then_].
  destruct z as [|e z]; [reflexivity|].
  cbn [append Pattern.literal].
  destruct (Ascii.eqb ">" e); [|reflexivity].
  destruct z; reflexivity.
Qed.

(** X1.  Whatever the clock, the sender name and the account (as long as the
    name has no [@] and the account has exactly one), the identifier of a
    request made by [sendEmail] ends with two closing brackets and does not
    match the pattern. *)
Theorem sendEmail_requests_get_malformed_messageId :
  forall now senderName local_part domain_text recipient subject_text message,
    Pattern.all Pattern.not_at (JS.render senderName) = true ->
    Pattern.all Pattern.not_at local_part = true ->
    Pattern.all Pattern.not_at domain_text = true ->
    let request :=
      sendEmail_request (Some (local_part ++ "@" ++ domain_text))
        senderName recipient subject_text message in
    make_messageId now request
    = JS.Return ("<" ++ JS.toString now ++ "@" ++ domain_text ++ ">>")
    /\ Pattern.messageId
         ("<" ++ JS.toString now ++ "@" ++ domain_text ++ ">>") = false.
Proof.
  intros now senderName local_part domain_text recipient subject_text message
    Hname Hlocal Hdomain request.
  destruct (toString_digits now) as [Hne Hdigits].
  split.
  - unfold make_messageId, request, sendEmail_request. cbn [from JS.defined JS.bind].
    rewrite after_at_domain. cbn [JS.render].
    cbn [Spec.domain]. change (Ascii.eqb JS.DQUOTE "@") with false.
    cbv iota.
    rewrite domain_skips_prefix by exact Hname.
    cbn [append Spec.domain]. change (Ascii.eqb JS.DQUOTE "@") with false.
    cbn [Ascii.eqb Bool.eqb]. cbv iota.
    rewrite append_assoc.
    rewrite domain_skips_prefix by exact Hlocal.
    cbn [append Spec.domain]. rewrite Ascii.eqb_refl.
    rewrite until_at_without_at.
    + cbn [JS.render]. now rewrite append_assoc.
    + rewrite all_app, Hdomain. reflexivity.
  - cbn [append]. apply doubled_bracket_never_matches; assumption.
Qed.

Lemma sendEmail_requests_get_malformed_messageId_witness :
  make_messageId Sample.clock Sample.routed
  = JS.Return ("<" ++ JS.toString Sample.clock ++ "@" ++ "example.com" ++ ">>")
  /\ Pattern.messageId
       ("<" ++ JS.toString Sample.clock ++ "@" ++ "example.com" ++ ">>") = false.
Proof.
  apply (sendEmail_requests_get_malformed_messageId
           Sample.clock (Some "Alice") "info" "example.com"
           (Some "bob@example.org") (Some "Hello") "Hi Bob");
    reflexivity.
Defined.

Lemma domain_chars_have_no_at (s : string) :
  Pattern.all Pattern.domain_char s = true ->
  Pattern.all Pattern.not_at s = true.
Proof.
  induction s as [|c s IH]; simpl; [reflexivity|].
  intros H. apply andb_true_iff in H. destruct H as [Hc Hs].
  rewrite (IH Hs), andb_true_r.
  unfold Pattern.domain_char in Hc. unfold Pattern.not_at.
  destruct (Ascii.eqb c "@"); [discriminate | reflexivity].
Qed.

(** X2.  A request whose [from] is a bare address gets an identifier that
    matches the pattern and whose domain part is the domain of that
    address. *)
Theorem bare_address_gets_well_formed_messageId :
  forall now mailOptions local_part domain_text,
    from mailOptions = Some (local_part ++ "@" ++ domain_text) ->
    Pattern.all Pattern.not_at local_part = true ->
    domain_text <> EmptyString ->
    Pattern.all Pattern.domain_char domain_text = true ->
    make_messageId now mailOptions
    = JS.Return ("<" ++ JS.toString now ++ "@" ++ domain_text ++ ">")
    /\ Pattern.messageId
         ("<" ++ JS.toString now ++ "@" ++ domain_text ++ ">") = true
    /\ Spec.domain (local_part ++ "@" ++ domain_text) = Some domain_text.
Proof.
  intros now mailOptions local_part domain_text Hfrom Hlocal Hne Hdomain.
  destruct (toString_digits now) as [Hn Hdigits].
  assert (D : Spec.domain (local_part ++ "@" ++ domain_text)
              = Some domain_text).
  { rewrite domain_skips_prefix by exact Hlocal.
    cbn [append Spec.domain]. rewrite Ascii.eqb_refl.
    now rewrite until_at_without_at by now apply domain_chars_have_no_at. }
  split; [|split].
  - unfold make_messageId. rewrite Hfrom. cbn [JS.defined JS.bind].
    now rewrite after_at_domain, D.
  - apply messageId_pattern_shape.
    exists (JS.toString now), domain_text. repeat split; assumption.
  - exact D.
Qed.

Lemma bare_address_gets_well_formed_messageId_witness :
  make_messageId Sample.clock Sample.direct
  = JS.Return ("<" ++ JS.toString Sample.clock ++ "@" ++ "example.com" ++ ">")
  /\ Pattern.messageId
       ("<" ++ JS.toString Sample.clock ++ "@" ++ "example.com" ++ ">") = true
  /\ Spec.domain ("info" ++ "@" ++ "example.com") = Some "example.com".
Proof.
  apply (bare_address_gets_well_formed_messageId
           Sample.clock Sample.direct "info" "example.com");
    [reflexivity | reflexivity | discriminate | reflexivity].
Defined.

Lemma fulfilled_only_with commands messageId (events : list Event) : forall s,
  (forall v, promise s = JS.Fulfilled v -> v = messageId) ->
  forall v,
    promise (run commands messageId s events) = JS.Fulfilled v ->
    v = messageId.
Proof.
  unfold run.
  induction events as [|e events IH]; intros s Hs; simpl; [exact Hs|].
  apply IH. intros v.
  destruct e as [chunk| |err|]; simpl.
  - unfold data_handler.
    destruct (positive_reply chunk); [destruct (_ <? _)%nat|]; simpl;
      try apply Hs.
    destruct (promise s) eqn:E; simpl; try discriminate. apply Hs.
  - destruct (promise s) eqn:E; simpl; try discriminate. apply Hs.
  - destruct (promise s) eqn:E; simpl; try discriminate. apply Hs.
  - destruct (_ <=? _)%nat; destruct (promise s) eqn:E; simpl;
      try discriminate; try apply Hs.
    intros H. now inversion H.
Qed.

(** X3.  The identifier is made once, before the handlers exist, and a session
    that is fulfilled is fulfilled with that very identifier, whatever
    events came in. *)
Theorem fulfilled_with_the_messageId_built :
  forall this mailOptions now messageId commands events v,
    envelope this mailOptions now = JS.Return (messageId, commands) ->
    promise (_sendViaHostinger this mailOptions now events) = JS.Fulfilled v ->
    v = messageId
    /\ make_messageId now mailOptions = JS.Return messageId.
Proof.
  intros this mailOptions now messageId commands events v H Hv.
  split.
  - rewrite (session_unfold _ _ _ _ _ _ H) in Hv.
    apply (fulfilled_only_with _ _ _ _) in Hv; [exact Hv|].
    simpl. discriminate.
  - apply envelope_inv in H.
    destruct H as (_ & _ & _ & _ & _ & _ & Hm & _). exact Hm.
Qed.

Lemma fulfilled_with_the_messageId_built_witness :
  "<1700000000000@example.com>" = "<1700000000000@example.com>"
  /\ make_messageId Sample.clock Sample.direct
     = JS.Return "<1700000000000@example.com>".
Proof.
  apply (fulfilled_with_the_messageId_built
           Sample.options Sample.direct Sample.clock
           "<1700000000000@example.com>"
           (Spec.envelope "info@example.com" "s3cret" Sample.direct
              "<1700000000000@example.com>")
           (Sample.happy ++ [on_close])
           "<1700000000000@example.com>");
    reflexivity.
Defined.

(** ** The scenarios of the specification *)

(** Scenario 1: every reply positive, then the server closes. *)
Example scenario_happy_path :
  promise (_sendViaHostinger Sample.options Sample.direct Sample.clock
             (Sample.happy ++ [on_close]))
  = JS.Fulfilled "<1700000000000@example.com>".
Proof. reflexivity. Qed.

(** Scenario 2: the recipient is refused.  Five positive replies have gone
    by when MAIL FROM is sent and the sixth sends RCPT TO, so the refusal
    finds the stage at 6. *)
Example scenario_relay_denied :
  let s := _sendViaHostinger Sample.options Sample.direct Sample.clock
             (map on_data (firstn 6 Sample.happy_chunks)
                ++ [on_data "550 Relay denied"; on_close]) in
  promise s = JS.Rejected (JS.Error "SMTP Error: 550 Relay denied")
  /\ stage s = 6
  /\ nth 5 (transmitted (socket s)) EmptyString
     = "RCPT TO:<bob@example.org>" ++ JS.CRLF.
Proof. repeat split; reflexivity. Qed.

(** Scenario 3: silence after the greeting, until the timer fires. *)
Example scenario_timeout :
  let s := _sendViaHostinger Sample.options Sample.direct Sample.clock
             [on_data (Sample.reply "220"); on_timeout; on_close] in
  promise s = JS.Rejected (JS.Error "SMTP connection timeout")
  /\ ended (socket s) = true
  /\ transmitted (socket s) = ["EHLO example.com" ++ JS.CRLF].
Proof. repeat split; reflexivity. Qed.

(** A positive delivery that arrives after a refusal still runs the
    handler: the stage moves and [write] is called, but the stream has
    been ended, nothing more is transmitted and the outcome stands. *)
Example positive_reply_after_refusal :
  let refused := _sendViaHostinger Sample.options Sample.direct Sample.clock
                   [on_data (Sample.reply "220"); on_data "550 no"] in
  let later := _sendViaHostinger Sample.options Sample.direct Sample.clock
                 [on_data (Sample.reply "220"); on_data "550 no";
                  on_data (Sample.reply "250")] in
  stage refused = 1 /\ stage later = 2
  /\ List.length (writes (socket later)) = 2
  /\ transmitted (socket later) = transmitted (socket refused)
  /\ transmitted (socket later) = ["EHLO example.com" ++ JS.CRLF]
  /\ promise later = promise refused.
Proof. repeat split; reflexivity. Qed.

(** * Further properties of the session *)

Section AnyEvents.

Variable commands : list string.
Variable messageId : string.

Lemma handle_stage (s : Session) (e : Event) :
  stage (handle commands messageId s e)
  = match e with
    | on_data chunk =>
        if positive_reply chunk && (stage s <? List.length commands)%nat
        then S (stage s) else stage s
    | _ => stage s
    end.
Proof.
  destruct e as [chunk| |err|]; simpl; try reflexivity.
  apply data_handler_stage.
Qed.

Lemma stage_any_events (events : list Event) : forall s,
  stage s <= List.length commands ->
  stage (run commands messageId s events)
  = Nat.min (List.length commands)
      (stage s + count_positives (deliveries events)).
Proof.
  unfold run, count_positives.
  induction events as [|e events IH]; intros s Hs; simpl.
  - lia.
  - assert (Hs' : stage (handle commands messageId s e)
                  <= List.length commands).
    { rewrite handle_stage. destruct e as [chunk| |err|]; try exact Hs.
      destruct (positive_reply chunk); simpl; [|exact Hs].
      destruct (stage s <? List.length commands)%nat eqn:Hlt; [|exact Hs].
      apply Nat.ltb_lt in Hlt. lia. }
    rewrite (IH _ Hs'), handle_stage.
    destruct e as [chunk| |err|]; simpl; try reflexivity.
    destruct (positive_reply chunk); simpl; [|reflexivity].
    destruct (stage s <? List.length commands)%nat eqn:Hlt.
    + lia.
    + apply Nat.ltb_ge in Hlt. lia.
Qed.

Lemma handle_ends_socket (s : Session) (e : Event) :
  ends_socket e = true ->
  socket (handle commands messageId s e) = (socket s ++ [end_])%list.
Proof.
  destruct e as [chunk| |err|]; simpl; try discriminate.
  - intros H. apply negb_true_iff in H.
    unfold data_handler. now rewrite H.
  - reflexivity.
Qed.

End AnyEvents.

Lemma transmitted_end_added (l : list SocketCall) :
  transmitted (l ++ [end_]) = transmitted l.
Proof.
  induction l as [|c l IH]; [reflexivity|].
  destruct c; simpl; now rewrite ?IH.
Qed.

Lemma transmitted_grows (l l' : list SocketCall) :
  exists more, transmitted (l ++ l') = (transmitted l ++ more)%list.
Proof.
  destruct (ended l) eqn:E.
  - exists []. rewrite app_nil_r. now apply transmitted_after_end.
  - exists (transmitted l'). now apply transmitted_before_end.
Qed.

Lemma transmitted_of_writes (l : list SocketCall) :
  exists k, transmitted l = firstn k (writes l).
Proof.
  induction l as [|c l [k IH]].
  - exists 0. reflexivity.
  - destruct c; simpl.
    + exists k. exact IH.
    + exists k. exact IH.
    + exists (S k). simpl. now rewrite IH.
    + exists 0. reflexivity.
Qed.

Lemma count_positives_le (chunks : list string) :
  count_positives chunks <= List.length chunks.
Proof.
  unfold count_positives. apply filter_length_le.
Qed.

Lemma session_stage this mailOptions now messageId commands events :
  envelope this mailOptions now = JS.Return (messageId, commands) ->
  stage (_sendViaHostinger this mailOptions now events)
  = Nat.min 9 (count_positives (deliveries events)).
Proof.
  intros H. rewrite (session_unfold _ _ _ _ _ _ H).
  rewrite stage_any_events by (simpl; lia).
  now rewrite (envelope_length _ _ _ _ _ H).
Qed.

(** X4.  In every session, whatever events arrive and in whatever order,
    the stage is the number of deliveries taken as positive so far, capped
    at 9; the program has written exactly the commands below the stage, in
    order and once each; and it has written at most one command per
    delivery received, so it never writes before the server has spoken. *)
Theorem stage_counts_positive_deliveries :
  forall this mailOptions now messageId commands,
    envelope this mailOptions now = JS.Return (messageId, commands) ->
    forall events,
      let s := _sendViaHostinger this mailOptions now events in
      stage s = Nat.min 9 (count_positives (deliveries events))
      /\ writes (socket s) = firstn (stage s) commands
      /\ List.length (writes (socket s)) = stage s
      /\ List.length (writes (socket s)) <= List.length (deliveries events).
Proof.
  intros this mailOptions now messageId commands H events s.
  pose proof (envelope_length _ _ _ _ _ H) as Hlen.
  pose proof (session_consistent _ _ _ _ _ events H) as Hc. fold s in Hc.
  assert (Hs : stage s = Nat.min 9 (count_positives (deliveries events))).
  { subst s. rewrite (session_unfold _ _ _ _ _ _ H).
    rewrite stage_any_events by (simpl; lia). now rewrite Hlen. }
  assert (Hw : List.length (writes (socket s)) = stage s).
  { rewrite (written_in_order _ _ Hc), length_firstn.
    pose proof (stage_in_range _ _ Hc). lia. }
  repeat split.
  - exact Hs.
  - exact (written_in_order _ _ Hc).
  - exact Hw.
  - rewrite Hw, Hs. pose proof (count_positives_le (deliveries events)). lia.
Qed.

Lemma stage_counts_positive_deliveries_witness :
  let events := [on_data (Sample.reply "220"); on_error (JS.SocketError "EPIPE");
                 on_data (Sample.reply "250"); on_timeout;
                 on_data "421 bye"; on_data (Sample.reply "250"); on_close] in
  let s := _sendViaHostinger Sample.options Sample.direct Sample.clock events in
  stage s = Nat.min 9 (count_positives (deliveries events))
  /\ writes (socket s)
     = firstn (stage s)
         (Spec.envelope "info@example.com" "s3cret" Sample.direct
            "<1700000000000@example.com>")
  /\ List.length (writes (socket s)) = stage s
  /\ List.length (writes (socket s)) <= List.length (deliveries events).
Proof.
  apply (stage_counts_positive_deliveries
           Sample.options Sample.direct Sample.clock
           "<1700000000000@example.com>"
           (Spec.envelope "info@example.com" "s3cret" Sample.direct
              "<1700000000000@example.com>")
           eq_refl).
Defined.

(** X5.  After a timeout or a delivery taken as negative, whenever it comes
    and whatever follows, nothing more reaches the wire; and what has
    reached the wire at any moment is an initial part of the command list,
    no longer than the stage. *)
Theorem nothing_is_transmitted_after_end :
  forall this mailOptions now messageId commands,
    envelope this mailOptions now = JS.Return (messageId, commands) ->
    forall before e after,
      ends_socket e = true ->
      let session := _sendViaHostinger this mailOptions now in
      transmitted (socket (session (before ++ e :: after)%list))
      = transmitted (socket (session before))
      /\ exists k,
          k <= stage (session before)
          /\ transmitted (socket (session before)) = firstn k commands.
Proof.
  intros this mailOptions now messageId commands H before e after He session.
  subst session. split.
  - rewrite (session_app _ _ _ _ _ before (e :: after) H).
    change (run commands messageId
              (_sendViaHostinger this mailOptions now before) (e :: after))
      with (run commands messageId
              (handle commands messageId
                 (_sendViaHostinger this mailOptions now before) e) after).
    rewrite transmitted_frozen.
    + rewrite handle_ends_socket by exact He. apply transmitted_end_added.
    + rewrite handle_ends_socket by exact He.
      rewrite ended_app. simpl. apply orb_true_r.
  - pose proof (session_consistent _ _ _ _ _ before H) as Hc.
    destruct (transmitted_of_writes
                (socket (_sendViaHostinger this mailOptions now before)))
      as [k Hk].
    rewrite (written_in_order _ _ Hc), firstn_firstn in Hk.
    eexists. split; [|exact Hk]. lia.
Qed.

Lemma nothing_is_transmitted_after_end_witness :
  let session := _sendViaHostinger Sample.options Sample.direct Sample.clock in
  let before := [on_data (Sample.reply "220"); on_close] in
  let after := [on_data (Sample.reply "250"); on_data (Sample.reply "334")] in
  transmitted (socket (session (before ++ on_timeout :: after)%list))
  = transmitted (socket (session before))
  /\ exists k,
      k <= stage (session before)
      /\ transmitted (socket (session before))
         = firstn k
             (Spec.envelope "info@example.com" "s3cret" Sample.direct
                "<1700000000000@example.com>").
Proof.
  apply (nothing_is_transmitted_after_end
           Sample.options Sample.direct Sample.clock
           "<1700000000000@example.com>"
           (Spec.envelope "info@example.com" "s3cret" Sample.direct
              "<1700000000000@example.com>")
           eq_refl
           [on_data (Sample.reply "220"); on_close] on_timeout
           [on_data (Sample.reply "250"); on_data (Sample.reply "334")]
           eq_refl).
Defined.

Lemma firstn_longer (A : Type) (l : list A) (k n : nat) :
  k <= n -> exists rest, firstn n l = (firstn k l ++ rest)%list.
Proof.
  intros Hk. exists (skipn k (firstn n l)).
  rewrite <- (firstn_skipn k (firstn n l)) at 1.
  rewrite firstn_firstn. now replace (Nat.min k n) with k by lia.
Qed.

(** X6.  A session is fulfilled only by a [close] that arrives while the
    Promise is pending and the stage is at least 8: by then eight
    deliveries have been taken as positive and the first eight commands,
    through the message content, have been transmitted; the value is the
    message identifier, and those eight commands open what the session has
    transmitted in the end. *)
Theorem fulfilled_means_content_was_transmitted :
  forall this mailOptions now messageId commands,
    envelope this mailOptions now = JS.Return (messageId, commands) ->
    forall events v,
      let session := _sendViaHostinger this mailOptions now in
      promise (session events) = JS.Fulfilled v ->
      v = messageId
      /\ (exists before after,
             events = (before ++ on_close :: after)%list
             /\ promise (session before) = JS.Pending
             /\ 8 <= stage (session before)
             /\ 8 <= count_positives (deliveries before)
             /\ transmitted (socket (session before))
                = firstn (stage (session before)) commands)
      /\ exists rest,
          transmitted (socket (session events))
          = (firstn 8 commands ++ rest)%list.
Proof.
  intros this mailOptions now messageId commands H events v session.
  subst session.
  pose proof (envelope_length _ _ _ _ _ H) as Hlen.
  assert (Main : promise (_sendViaHostinger this mailOptions now events)
                 = JS.Fulfilled v ->
                 v = messageId
                 /\ exists before after,
                     events = (before ++ on_close :: after)%list
                     /\ promise (_sendViaHostinger this mailOptions now before)
                        = JS.Pending
                     /\ 8 <= stage (_sendViaHostinger this mailOptions now before)).
  { induction events as [|e events IH] using rev_ind.
    - rewrite (session_unfold _ _ _ _ _ _ H). simpl. discriminate.
    - rewrite (session_app _ _ _ _ _ events [e] H).
      change (run commands messageId
                (_sendViaHostinger this mailOptions now events) [e])
        with (handle commands messageId
                (_sendViaHostinger this mailOptions now events) e).
      destruct (promise (_sendViaHostinger this mailOptions now events))
        as [|v'|r] eqn:Hp.
      + destruct e as [chunk| |err|]; cbn [handle].
        * unfold data_handler.
          destruct (positive_reply chunk); [destruct (_ <? _)%nat|];
            simpl; rewrite Hp; discriminate.
        * simpl. rewrite Hp. discriminate.
        * simpl. rewrite Hp. discriminate.
        * unfold close_handler. cbn [promise]. rewrite Hp, Hlen.
          change (9 - 1) with 8.
          destruct (8 <=? stage (_sendViaHostinger this mailOptions now events))%nat
            eqn:Hge; cbn [JS.resolve JS.reject]; [|discriminate].
          intros Hv. inversion Hv. split; [reflexivity|].
          exists events, []. repeat split; [exact Hp|].
          now apply Nat.leb_le.
      + rewrite settled_handle by (rewrite Hp; reflexivity).
        rewrite Hp. intros Hv. inversion Hv; subst v'.
        destruct (IH eq_refl) as (Hm & before & after & E & Hb & Hs).
        split; [exact Hm|].
        exists before, (after ++ [e])%list. repeat split; try assumption.
        rewrite E, <- app_assoc. reflexivity.
      + rewrite settled_handle by (rewrite Hp; reflexivity).
        rewrite Hp. discriminate. }
  intros Hv. destruct (Main Hv) as (Hm & before & after & E & Hb & Hs).
  pose proof (session_consistent _ _ _ _ _ before H) as Hc.
  destruct (pending_transmitted _ _ Hc Hb) as [_ Ht].
  split; [exact Hm|]. split.
  - exists before, after. repeat split; try assumption.
    pose proof (session_stage _ _ _ _ _ before H) as Hst.
    lia.
  - rewrite E, (session_app _ _ _ _ _ before (on_close :: after) H).
    destruct (run_extends commands messageId (on_close :: after)
                (_sendViaHostinger this mailOptions now before)) as [calls Hx].
    rewrite Hx.
    destruct (transmitted_grows
                (socket (_sendViaHostinger this mailOptions now before)) calls)
      as [more Hg].
    rewrite Hg, Ht.
    destruct (firstn_longer _ commands 8 _ Hs) as [rest Hr].
    rewrite Hr. exists (rest ++ more)%list. now rewrite app_assoc.
Qed.

Lemma fulfilled_means_content_was_transmitted_witness :
  let session := _sendViaHostinger Sample.options Sample.direct Sample.clock in
  let events := (map on_data (firstn 8 Sample.happy_chunks)
                   ++ [on_close; on_timeout])%list in
  let commands := Spec.envelope "info@example.com" "s3cret" Sample.direct
                    "<1700000000000@example.com>" in
  "<1700000000000@example.com>" = "<1700000000000@example.com>"
  /\ (exists before after,
         events = (before ++ on_close :: after)%list
         /\ promise (session before) = JS.Pending
         /\ 8 <= stage (session before)
         /\ 8 <= count_positives (deliveries before)
         /\ transmitted (socket (session before))
            = firstn (stage (session before)) commands)
  /\ exists rest,
      transmitted (socket (session events)) = (firstn 8 commands ++ rest)%list.
Proof.
  apply (fulfilled_means_content_was_transmitted
           Sample.options Sample.direct Sample.clock
           "<1700000000000@example.com>"
           (Spec.envelope "info@example.com" "s3cret" Sample.direct
              "<1700000000000@example.com>")
           eq_refl
           (map on_data (firstn 8 Sample.happy_chunks)
              ++ [on_close; on_timeout])%list
           "<1700000000000@example.com>").
  reflexivity.
Defined.

(** X7.  Every rejection of a session whose envelope was built comes from
    an event that was received: a delivery taken as negative (the reason is
    [SMTP Error: ] followed by that very delivery), a timeout, a socket
    error (the reason is the error itself), or a close. *)
Theorem every_rejection_comes_from_an_event :
  forall this mailOptions now messageId commands,
    envelope this mailOptions now = JS.Return (messageId, commands) ->
    forall events reason,
      promise (_sendViaHostinger this mailOptions now events)
      = JS.Rejected reason ->
      (exists chunk,
          In (on_data chunk) events /\ positive_reply chunk = false
          /\ reason = JS.Error ("SMTP Error: " ++ chunk))
      \/ (In on_timeout events
          /\ reason = JS.Error "SMTP connection timeout")
      \/ In (on_error reason) events
      \/ (In on_close events
          /\ reason = JS.Error "SMTP connection closed prematurely").
Proof.
  intros this mailOptions now messageId commands H events reason.
  induction events as [|e events IH] using rev_ind.
  - rewrite (session_unfold _ _ _ _ _ _ H). simpl. discriminate.
  - rewrite (session_app _ _ _ _ _ events [e] H).
    change (run commands messageId
              (_sendViaHostinger this mailOptions now events) [e])
      with (handle commands messageId
              (_sendViaHostinger this mailOptions now events) e).
    destruct (promise (_sendViaHostinger this mailOptions now events))
      as [|v|r] eqn:Hp.
    + clear IH. destruct e as [chunk| |err|]; cbn [handle].
      * unfold data_handler.
        destruct (positive_reply chunk) eqn:Hc;
          [destruct (_ <? _)%nat; simpl; rewrite Hp; discriminate|].
        simpl. rewrite Hp. simpl. intros Hr. inversion Hr.
        left. exists chunk. repeat split; [|exact Hc].
        apply in_or_app. right. now left.
      * simpl. rewrite Hp. simpl. intros Hr. inversion Hr.
        right. left. split; [|reflexivity].
        apply in_or_app. right. now left.
      * simpl. rewrite Hp. simpl. intros Hr. inversion Hr.
        right. right. left. apply in_or_app. right. now left.
      * unfold close_handler. cbn [promise]. rewrite Hp.
        destruct (_ <=? _)%nat; cbn [JS.resolve JS.reject]; [discriminate|].
        intros Hr. inversion Hr.
        right. right. right. split; [|reflexivity].
        apply in_or_app. right. now left.
    + rewrite settled_handle by (rewrite Hp; reflexivity).
      rewrite Hp. discriminate.
    + rewrite settled_handle by (rewrite Hp; reflexivity).
      rewrite Hp. intros Hr. inversion Hr; subst r.
      destruct (IH eq_refl) as [(chunk & Hin & Hc & E)|[[Hin E]|[Hin|[Hin E]]]].
      * left. exists chunk. repeat split; try assumption.
        apply in_or_app. now left.
      * right. left. split; [apply in_or_app; now left | exact E].
      * right. right. left. apply in_or_app. now left.
      * right. right. right. split; [apply in_or_app; now left | exact E].
Qed.

Lemma every_rejection_comes_from_an_event_witness :
  let events := [on_data (Sample.reply "220"); on_data "421 busy"; on_close] in
  (exists chunk,
      In (on_data chunk) events /\ positive_reply chunk = false
      /\ JS.Error "SMTP Error: 421 busy" = JS.Error ("SMTP Error: " ++ chunk))
  \/ (In on_timeout events
      /\ JS.Error "SMTP Error: 421 busy" = JS.Error "SMTP connection timeout")
  \/ In (on_error (JS.Error "SMTP Error: 421 busy")) events
  \/ (In on_close events
      /\ JS.Error "SMTP Error: 421 busy"
         = JS.Error "SMTP connection closed prematurely").
Proof.
  apply (every_rejection_comes_from_an_event
           Sample.options Sample.direct Sample.clock
           "<1700000000000@example.com>"
           (Spec.envelope "info@example.com" "s3cret" Sample.direct
              "<1700000000000@example.com>")
           eq_refl
           [on_data (Sample.reply "220"); on_data "421 busy"; on_close]
           (JS.Error "SMTP Error: 421 busy")).
  reflexivity.
Defined.

(** * Further properties of the envelope *)

Lemma sextet_symbol (n : N) : base64_symbol (JS.sextet n) = true.
Proof.
  unfold JS.sextet. generalize (N.to_nat n). intros k.
  do 64 (destruct k as [|k]; [reflexivity|]).
  reflexivity.
Qed.

Lemma base64_by_three (P : string -> Prop) :
  P EmptyString ->
  (forall a, P (String a EmptyString)) ->
  (forall a b, P (String a (String b EmptyString))) ->
  (forall a b c rest, P rest -> P (String a (String b (String c rest)))) ->
  forall s, P s.
Proof.
  intros H0 H1 H2 H3.
  assert (A : forall s, P s /\ (forall a, P (String a s))
                        /\ (forall a b, P (String a (String b s)))).
  { induction s as [|c s (IH0 & IH1 & IH2)].
    - auto.
    - repeat split; auto. }
  intros s. apply A.
Qed.

Lemma base64_symbols (s : string) :
  Pattern.all base64_symbol (JS.base64 s) = true.
Proof.
  induction s as [| a | a b | a b c rest IH] using base64_by_three.
  - reflexivity.
  - cbn [JS.base64 Pattern.all]. now rewrite !sextet_symbol.
  - cbn [JS.base64 Pattern.all]. now rewrite !sextet_symbol.
  - cbn [JS.base64 Pattern.all]. now rewrite !sextet_symbol, IH.
Qed.

Lemma base64_length (s : string) :
  String.length (JS.base64 s) = 4 * ((String.length s + 2) / 3).
Proof.
  induction s as [| a | a b | a b c rest IH] using base64_by_three.
  - reflexivity.
  - reflexivity.
  - reflexivity.
  - cbn [JS.base64 String.length]. rewrite IH.
    replace (S (S (S (String.length rest))) + 2)
      with (String.length rest + 2 + 1 * 3) by lia.
    rewrite Nat.div_add by lia. lia.
Qed.

Lemma symbols_are_not_line_ends (s : string) :
  Pattern.all base64_symbol s = true ->
  Pattern.all (fun c => negb (Ascii.eqb c JS.CR || Ascii.eqb c JS.LF)) s
  = true.
Proof.
  induction s as [|c s IH]; simpl; [reflexivity|].
  intros H. apply andb_true_iff in H. destruct H as [Hc Hs].
  rewrite (IH Hs), andb_true_r.
  destruct (Ascii.eqb_spec c JS.CR) as [E|_]; [subst c; discriminate|].
  destruct (Ascii.eqb_spec c JS.LF) as [E|_]; [subst c; discriminate|].
  reflexivity.
Qed.

(** X8.  Whenever the envelope is built, stages 2 and 3 are the base64 text
    of the configured user and password followed by CRLF; that text is made
    of letters, digits, [+], [/] and [=] only, so it holds no CR or LF and
    each credential is exactly one line, and its length is four characters
    for every three bytes of the credential, rounded up. *)
Theorem credentials_are_single_base64_lines :
  forall this mailOptions now messageId commands u p,
    envelope this mailOptions now = JS.Return (messageId, commands) ->
    user (auth this) = Some u ->
    pass (auth this) = Some p ->
    nth 2 commands EmptyString = JS.base64 u ++ JS.CRLF
    /\ nth 3 commands EmptyString = JS.base64 p ++ JS.CRLF
    /\ Pattern.all (fun c => negb (Ascii.eqb c JS.CR || Ascii.eqb c JS.LF))
         (JS.base64 u ++ JS.base64 p) = true
    /\ String.length (JS.base64 u) = 4 * ((String.length u + 2) / 3)
    /\ String.length (JS.base64 p) = 4 * ((String.length p + 2) / 3).
Proof.
  intros this mailOptions now messageId commands u p H Hu Hp.
  apply envelope_inv in H.
  destruct H as (f & u' & p' & _ & Hu' & Hp' & _ & H).
  unfold make_commands in H. rewrite Hu, Hp in H. simpl JS.bind in H.
  inversion H as [Hc]. clear H Hc.
  repeat split; try apply base64_length.
  apply symbols_are_not_line_ends.
  now rewrite all_app, !base64_symbols.
Qed.

Lemma credentials_are_single_base64_lines_witness :
  let commands := Spec.envelope "info@example.com" "s3cret" Sample.direct
                    "<1700000000000@example.com>" in
  nth 2 commands EmptyString = JS.base64 "info@example.com" ++ JS.CRLF
  /\ nth 3 commands EmptyString = JS.base64 "s3cret" ++ JS.CRLF
  /\ Pattern.all (fun c => negb (Ascii.eqb c JS.CR || Ascii.eqb c JS.LF))
       (JS.base64 "info@example.com" ++ JS.base64 "s3cret") = true
  /\ String.length (JS.base64 "info@example.com")
     = 4 * ((String.length "info@example.com" + 2) / 3)
  /\ String.length (JS.base64 "s3cret")
     = 4 * ((String.length "s3cret" + 2) / 3).
Proof.
  apply (credentials_are_single_base64_lines
           Sample.options Sample.direct Sample.clock
           "<1700000000000@example.com>"
           (Spec.envelope "info@example.com" "s3cret" Sample.direct
              "<1700000000000@example.com>")
           "info@example.com" "s3cret");
    reflexivity.
Defined.

Lemma replace_newlines_no_LF (s : string) :
  Pattern.all not_LF (JS.replace_newlines "<br>" s) = true.
Proof.
  induction s as [|c s IH]; simpl; [reflexivity|].
  destruct (Ascii.eqb c JS.LF) eqn:E.
  - simpl. exact IH.
  - simpl. unfold not_LF at 1. now rewrite E, IH.
Qed.

Lemma replace_newlines_without_LF (s : string) :
  Pattern.all not_LF s = true -> JS.replace_newlines "<br>" s = s.
Proof.
  induction s as [|c s IH]; simpl; [reflexivity|].
  unfold not_LF at 1. intros H.
  apply andb_true_iff in H. destruct H as [Hc Hs].
  apply negb_true_iff in Hc. now rewrite Hc, IH.
Qed.

Lemma replace_newlines_empty (s : string) :
  JS.replace_newlines "<br>" s = EmptyString -> s = EmptyString.
Proof.
  destruct s as [|c s]; simpl; [reflexivity|].
  destruct (Ascii.eqb c JS.LF); discriminate.
Qed.

(** X9.  The body of a mail sent through [sendEmail] is always the message
    with every LF replaced by [<br>]: the unreplaced text is never what is
    transmitted.  That body holds no LF, and it is the message itself when
    the message has none. *)
Theorem sendEmail_body_is_the_html_version :
  forall smtp_user senderName recipient subject_text message,
    let request :=
      sendEmail_request smtp_user senderName recipient subject_text message in
    JS.render (JS.or_else (html request) (text request))
    = JS.replace_newlines "<br>" message
    /\ Pattern.all not_LF
         (JS.render (JS.or_else (html request) (text request))) = true
    /\ (Pattern.all not_LF message = true ->
        JS.render (JS.or_else (html request) (text request)) = message).
Proof.
  intros smtp_user senderName recipient subject_text message request.
  assert (E : JS.render (JS.or_else (html request) (text request))
              = JS.replace_newlines "<br>" message).
  { subst request. unfold sendEmail_request, JS.or_else. cbn [html text].
    destruct (JS.replace_newlines "<br>" message) as [|c s] eqn:R.
    - cbn. now rewrite (replace_newlines_empty _ R).
    - reflexivity. }
  rewrite E. split; [reflexivity|]. split.
  - apply replace_newlines_no_LF.
  - apply replace_newlines_without_LF.
Qed.

Lemma sendEmail_body_is_the_html_version_witness :
  let message := String "a" (String JS.LF (String "." (String JS.LF "b"))) in
  let request :=
    sendEmail_request (Some "info@example.com") (Some "Alice")
      (Some "bob@example.org") (Some "Hello") message in
  JS.render (JS.or_else (html request) (text request)) = "a<br>.<br>b"
  /\ Pattern.all not_LF
       (JS.render (JS.or_else (html request) (text request))) = true.
Proof.
  split;
    apply (sendEmail_body_is_the_html_version
             (Some "info@example.com") (Some "Alice")
             (Some "bob@example.org") (Some "Hello")
             (String "a" (String JS.LF (String "." (String JS.LF "b"))))).
Defined.

Lemma until_at_splits (s : string) :
  exists rest,
    s = Spec.until_at s ++ rest
    /\ Pattern.all Pattern.not_at (Spec.until_at s) = true
    /\ (rest = EmptyString \/ exists r, rest = String "@" r).
Proof.
  induction s as [|c s (rest & E & A & R)]; simpl.
  - exists EmptyString. auto.
  - destruct (Ascii.eqb_spec c "@") as [Hc|Hc].
    + subst c. exists (String "@" s). repeat split. right. now exists s.
    + exists rest. simpl. rewrite <- E. repeat split; [|exact R].
      unfold Pattern.not_at at 1.
      destruct (Ascii.eqb_spec c "@"); [contradiction|]. exact A.
Qed.

(** X10.  The expression [s.split('@')[1]], from which the EHLO domain and
    the domain of the message identifier are taken, is undefined exactly
    when [s] has no [@]; otherwise it is the text between the first [@] and
    the next one (or the end), so it never holds an [@] and drops whatever
    follows a second [@]. *)
Theorem after_at_is_the_text_between_the_first_two_ats :
  forall s,
    (after_at s = None <-> Pattern.all Pattern.not_at s = true)
    /\ forall d,
        after_at s = Some d ->
        exists local_part rest,
          s = local_part ++ String "@" (d ++ rest)
          /\ Pattern.all Pattern.not_at local_part = true
          /\ Pattern.all Pattern.not_at d = true
          /\ (rest = EmptyString \/ exists r, rest = String "@" r).
Proof.
  intros s. rewrite after_at_domain.
  induction s as [|c s [IHn IHs]]; simpl.
  - split; [split; reflexivity | discriminate].
  - unfold Pattern.not_at at 1.
    destruct (Ascii.eqb_spec c "@") as [Hc|Hc]; simpl.
    + subst c. split; [split; discriminate|].
      intros d Hd. inversion Hd; subst d.
      destruct (until_at_splits s) as (rest & E & A & R).
      exists EmptyString, rest. simpl. rewrite <- E. auto.
    + split; [exact IHn|].
      intros d Hd. destruct (IHs d Hd) as (l & rest & E & Al & Ad & R).
      exists (String c l), rest. simpl. rewrite <- E.
      repeat split; try assumption.
      unfold Pattern.not_at at 1.
      destruct (Ascii.eqb_spec c "@"); [contradiction|]. exact Al.
Qed.

Lemma after_at_is_the_text_between_the_first_two_ats_witness :
  exists local_part rest,
    "a@b@example.com" = local_part ++ String "@" ("b" ++ rest)
    /\ Pattern.all Pattern.not_at local_part = true
    /\ Pattern.all Pattern.not_at "b" = true
    /\ (rest = EmptyString \/ exists r, rest = String "@" r).
Proof.
  apply (proj2 (after_at_is_the_text_between_the_first_two_ats
                  "a@b@example.com") "b").
  reflexivity.
Defined.

Lemma split_cons (sep : ascii) (s : string) :
  exists piece pieces, JS.split sep s = piece :: pieces.
Proof.
  destruct s as [|c s]; simpl; [eauto|].
  destruct (Ascii.eqb c sep); [eauto|].
  destruct (JS.split sep s); eauto.
Qed.

Lemma concat_cons (sep x : string) (xs : list string) :
  xs <> [] -> String.concat sep (x :: xs) = x ++ sep ++ String.concat sep xs.
Proof.
  destruct xs; [congruence | reflexivity].
Qed.

(** X11.  [s.split(sep)] loses nothing: joining the pieces with the
    separator gives [s] back, no piece holds the separator, and there is one
    piece more than there are separators in [s]. *)
Theorem split_then_join_is_identity :
  forall sep s,
    String.concat (String sep EmptyString) (JS.split sep s) = s
    /\ Forall (fun piece => occurrences sep piece = 0) (JS.split sep s)
    /\ List.length (JS.split sep s) = S (occurrences sep s).
Proof.
  intros sep s. induction s as [|c s (IHj & IHf & IHl)]; simpl.
  - repeat split. constructor; [reflexivity | constructor].
  - destruct (split_cons sep s) as (piece & pieces & E).
    destruct (Ascii.eqb_spec c sep) as [Hc|Hc].
    + subst c. repeat split.
      * rewrite concat_cons by (rewrite E; discriminate).
        simpl. now rewrite IHj.
      * constructor; [reflexivity | exact IHf].
      * simpl. now rewrite IHl.
    + rewrite E in *. repeat split.
      * rewrite <- IHj. destruct pieces; reflexivity.
      * inversion IHf; subst. constructor; [|assumption].
        simpl. destruct (Ascii.eqb_spec c sep); [contradiction|]. assumption.
      * simpl in *. exact IHl.
Qed.

(** * The route *)















Example the_sample_report :
  snd (send_emails RouteSample.env RouteSample.parseInt RouteSample.request
         RouteSample.clock RouteSample.events [1; 0] [])
  = Some (Report 1 1
            [ {| recipient := Some "carol@example.org";
                 outcome_status := "failed";
                 error := Some (JS.Error "SMTP Error: 554 go away") |};
              {| recipient := Some "bob@example.org";
                 outcome_status := "sent";
                 error := None |} ]).
Proof. reflexivity. Qed.





(** X13.  The validation hands over to the route exactly when the sender
    name, the subject and the message are truthy and the recipients are an
    array with at least one element, whatever the elements are.  A missing,
    null, false, zero or empty field, the recipients included, is answered
    with [Missing required fields]; an empty array and a truthy value that
    is no array are answered with [Recipients must be a non-empty array]. *)
Theorem validation_outcomes :
  forall body,
    let all_present :=
      truthy_value (property "senderName" body)
      && truthy_value (property "subject" body)
      && truthy_value (property "message" body) in
    (validateEmailRequest body = next
     <-> all_present = true
         /\ exists first rest,
             property "recipients" body = Some (JArray (first :: rest)))
    /\ (validateEmailRequest body
        = respond (BadRequest "Missing required fields")
        <-> all_present && truthy_value (property "recipients" body) = false)
    /\ (validateEmailRequest body
        = respond (BadRequest "Recipients must be a non-empty array")
        <-> all_present && truthy_value (property "recipients" body) = true
            /\ forall first rest,
                property "recipients" body <> Some (JArray (first :: rest))).
Proof.
  intros body all_present. subst all_present.
  unfold validateEmailRequest.
  destruct (truthy_value (property "senderName" body));
    destruct (truthy_value (property "subject" body));
    destruct (truthy_value (property "message" body));
    cbn [negb orb andb];
    try (split; [|split]; split;
         [ discriminate | intros [? _]; discriminate
         | reflexivity | reflexivity
         | discriminate | intros [? _]; discriminate ]).
  destruct (property "recipients" body) as [[|b|z|r|[|x xs]|ms]|];
    cbn [truthy_value negb];
    try (destruct b); try (destruct z); try (destruct r as [|c r]);
    cbn [negb];
    (split; [|split]; split;
     try discriminate; try reflexivity;
     try (intros [_ (first & rest & E)]; discriminate);
     try (intros [? _]; discriminate);
     try (intros _; split; [reflexivity | intros first rest; discriminate])).
  - intros _. split; [reflexivity|]. now exists x, xs.
  - intros [_ H]. now destruct (H x xs).
Qed.

(** X16.  For a body whose fields are three strings and an array of
    strings, the validation hands over exactly when the three strings are
    not empty and there is at least one recipient; the recipients
    themselves are not looked at, so an empty address passes. *)
Theorem typed_body_passes_validation :
  forall body request,
    typed body = Some request ->
    (validateEmailRequest body = next
     <-> senderName request <> EmptyString
         /\ subject_line request <> EmptyString
         /\ message_text request <> EmptyString
         /\ recipients request <> []).
Proof.
  intros body request. unfold typed, validateEmailRequest.
  destruct (property "senderName" body) as [[| | |n| |]|]; try discriminate.
  destruct (property "subject" body) as [[| | |s| |]|]; try discriminate.
  destruct (property "message" body) as [[| | |m| |]|]; try discriminate.
  destruct (property "recipients" body) as [[| | | |items|]|];
    try discriminate.
  destruct (strings_of items) as [rs|] eqn:Hrs; [|discriminate].
  intros E. inversion E; subst request. clear E. cbn [senderName subject_line
    message_text recipients truthy_value].
  assert (Hitems : items = [] <-> rs = []).
  { destruct items as [|[| | |x| |] items]; simpl in Hrs; try discriminate.
    - inversion Hrs. tauto.
    - destruct (strings_of items); [|discriminate]. inversion Hrs.
      split; discriminate. }
  destruct n as [|c1 n]; destruct s as [|c2 s]; destruct m as [|c3 m];
    cbn [negb orb];
    try (split; [discriminate | intros (A & B & C & D); congruence]).
  destruct items as [|x xs].
  - split; [discriminate|]. intros (_ & _ & _ & D).
    destruct D. now apply Hitems.
  - split; [|reflexivity]. intros _.
    repeat split; try discriminate.
    intros D. apply Hitems in D. discriminate.
Qed.

Lemma typed_body_passes_validation_witness :
  validateEmailRequest RouteSample.body = next
  <-> senderName RouteSample.request <> EmptyString
      /\ subject_line RouteSample.request <> EmptyString
      /\ message_text RouteSample.request <> EmptyString
      /\ recipients RouteSample.request <> [].
Proof.
  apply (typed_body_passes_validation RouteSample.body RouteSample.request).
  reflexivity.
Defined.

Example validation_of_edge_bodies :
  validateEmailRequest (JObject []) = respond (BadRequest "Missing required fields")
  /\ validateEmailRequest (JArray [JString "x"])
     = respond (BadRequest "Missing required fields")
  /\ validateEmailRequest
       (JObject [("senderName", JString "A"); ("subject", JString "S");
                 ("message", JString "M"); ("recipients", JArray [])])
     = respond (BadRequest "Recipients must be a non-empty array")
  /\ validateEmailRequest
       (JObject [("senderName", JString "A"); ("subject", JString "S");
                 ("message", JString "M");
                 ("recipients", JString "bob@example.org")])
     = respond (BadRequest "Recipients must be a non-empty array")
  /\ validateEmailRequest
       (JObject [("senderName", JString "A"); ("subject", JString "S");
                 ("message", JString "M"); ("recipients", JArray [JNull])])
     = next.
Proof. repeat split; reflexivity. Qed.

(** X12.  A transporter built by the constructor always waits 10000 ms,
    whatever the environment holds, and neither its debug flag nor
    [SMTP_SECURE] changes anything [sendMail] does: the same socket calls,
    the same store, the same outcome. *)
Theorem constructed_transporter_ignores_secure_and_debug :
  forall options_debug options_localMode env parseInt,
    timeout_or_default
      (SimpleSmtp options_debug options_localMode env parseInt) = 10000%N
    /\ forall other_debug other_secure mailOptions now events emailStore,
        sendMail (SimpleSmtp options_debug options_localMode env parseInt)
          mailOptions now events emailStore
        = sendMail
            (SimpleSmtp other_debug options_localMode
               {| SMTP_HOST := SMTP_HOST env;
                  SMTP_PORT := SMTP_PORT env;
                  SMTP_SECURE := other_secure;
                  SMTP_USER := SMTP_USER env;
                  SMTP_PASS := SMTP_PASS env |}
               parseInt)
            mailOptions now events emailStore.
Proof.
  intros options_debug options_localMode env parseInt.
  split; [reflexivity|].
  intros other_debug other_secure mailOptions now events emailStore.
  unfold sendMail, _sendViaHostinger, envelope, make_commands, opened,
    timeout_or_default, SimpleSmtp.
  cbn [localMode auth user pass host port timeout SMTP_HOST SMTP_PORT
       SMTP_USER SMTP_PASS].
  reflexivity.
Qed.

(** * Base64 read back *)

Lemma every_byte_listed (a : ascii) : In a Base64.all_bytes.
Proof.
  rewrite <- (ascii_nat_embedding a). unfold Base64.all_bytes.
  apply in_map, in_seq. pose proof (nat_ascii_bounded a). lia.
Qed.

Lemma one_byte_round_trip (a : ascii) : Base64.one_byte_ok a = true.
Proof.
  assert (H : forallb Base64.one_byte_ok Base64.all_bytes = true)
    by (vm_compute; reflexivity).
  apply (proj1 (forallb_forall _ _) H), every_byte_listed.
Qed.

Lemma two_bytes_round_trip (a b : ascii) : Base64.two_bytes_ok a b = true.
Proof.
  assert (H : forallb (fun x => forallb (Base64.two_bytes_ok x)
                                  Base64.all_bytes)
                Base64.all_bytes = true)
    by (vm_compute; reflexivity).
  pose proof (proj1 (forallb_forall _ _) H a (every_byte_listed a)) as Ha.
  apply (proj1 (forallb_forall _ _) Ha), every_byte_listed.
Qed.

Lemma two_bytes_facts (a b : ascii) :
  let x := N_of_ascii a in
  let y := N_of_ascii b in
  let v2 := N.lor (N.shiftl (N.land x 3) 4) (N.shiftr y 4) in
  let v3 := N.lor (N.shiftl (N.land x 15) 2) (N.shiftr y 6) in
  Base64.decode (JS.base64 (String a (String b EmptyString)))
  = Some (String a (String b EmptyString))
  /\ Base64.value (JS.sextet (N.shiftr x 2)) = Some (N.shiftr x 2)
  /\ Base64.value (JS.sextet v2) = Some v2
  /\ Base64.value (JS.sextet v3) = Some v3
  /\ Base64.value (JS.sextet (N.land y 63)) = Some (N.land y 63)
  /\ Ascii.eqb (JS.sextet v3) JS.pad = false
  /\ Ascii.eqb (JS.sextet (N.land y 63)) JS.pad = false
  /\ Base64.first_byte (N.shiftr x 2) v2 = a
  /\ N.land v2 15 = N.shiftr y 4
  /\ N.shiftr v3 2 = N.land x 15
  /\ ascii_of_N (N.lor (N.shiftl (N.shiftr y 4) 4) (N.land y 15)) = b
  /\ Base64.third_byte v3 (N.land y 63) = b.
Proof.
  intros x y v2 v3.
  pose proof (two_bytes_round_trip a b) as H.
  unfold Base64.two_bytes_ok in H. fold x y v2 v3 in H.
  repeat (apply andb_true_iff in H; destruct H as [H ?]).
  destruct (Base64.decode (JS.base64 (String a (String b EmptyString))))
    as [[|a' [|b' [|? ?]]]|]; try discriminate.
  apply andb_true_iff in H. destruct H as [Ea Eb].
  apply Ascii.eqb_eq in Ea, Eb. subst a' b'.
  destruct (Base64.value (JS.sextet (N.shiftr x 2))) as [w1|];
    [|discriminate].
  destruct (Base64.value (JS.sextet v2)) as [w2|]; [|discriminate].
  destruct (Base64.value (JS.sextet v3)) as [w3|]; [|discriminate].
  destruct (Base64.value (JS.sextet (N.land y 63))) as [w4|]; [|discriminate].
  repeat match goal with
         | E : (_ && _) = true |- _ =>
             apply andb_true_iff in E; destruct E
         | E : N.eqb _ _ = true |- _ => apply N.eqb_eq in E
         | E : Ascii.eqb _ _ = true |- _ => apply Ascii.eqb_eq in E
         | E : negb _ = true |- _ => apply negb_true_iff in E
         end.
  subst w1 w2 w3 w4. repeat split; assumption.
Qed.

(** X17.  Base64 loses nothing: reading the text of [JS.base64] back by the
    rules of RFC 4648 gives the original bytes, for every string.  So the
    two AUTH LOGIN lines carry exactly the configured user and password. *)
Theorem base64_decodes_to_the_original :
  forall s, Base64.decode (JS.base64 s) = Some s.
Proof.
  induction s as [| a | a b | a b c rest IH] using base64_by_three.
  - reflexivity.
  - pose proof (one_byte_round_trip a) as H. unfold Base64.one_byte_ok in H.
    destruct (Base64.decode (JS.base64 (String a EmptyString)))
      as [[|a' [|? ?]]|]; try discriminate.
    apply Ascii.eqb_eq in H. now subst a'.
  - apply two_bytes_facts.
  - destruct (two_bytes_facts a b)
      as (_ & V1 & V2 & _ & _ & _ & _ & B1 & E2a & _ & _ & _).
    destruct (two_bytes_facts b c)
      as (_ & _ & _ & V3 & V4 & P3 & P4 & _ & _ & E2b & E2c & B3).
    destruct (two_bytes_facts a b) as (_ & _ & _ & _ & _ & _ & _ & _ & _ & _
                                        & Eb & _).
    cbn [JS.base64 Base64.decode].
    rewrite V1, V2, P3, V3, P4, V4, IH.
    rewrite B1, B3. unfold Base64.second_byte.
    rewrite E2a, E2b, Eb. reflexivity.
Qed.

(** The credentials of the sample configuration, read back from stages 2
    and 3 of its envelope. *)
Example sample_credentials_read_back :
  Base64.decode "aW5mb0BleGFtcGxlLmNvbQ==" = Some "info@example.com"
  /\ Base64.decode "czNjcmV0" = Some "s3cret"
  /\ Base64.decode "czNjcmV" = None
  /\ Base64.decode "cz=jcmV0" = None.
Proof. repeat split; reflexivity. Qed.

(** * Local mode *)

Lemma toString_injective (n m : N) : JS.toString n = JS.toString m -> n = m.
Proof.
  unfold JS.toString. intros H.
  apply (f_equal NilEmpty.uint_of_string) in H.
  rewrite !NilEmpty.usu in H. inversion H as [E].
  apply (f_equal N.of_uint) in E.
  now rewrite !DecimalN.Unsigned.of_to in E.
Qed.

(** X18.  In local mode two mails sent one after the other are both stored,
    in that order and behind what was stored before, with whatever fields
    they have; no socket call is made and both are fulfilled.  The
    identifier of a stored mail is the clock in decimal, so the two mails
    get the same identifier exactly when they are stored in the same
    millisecond. *)
Theorem local_mode_stores_in_order :
  forall this first second now1 now2 events1 events2 emailStore,
    localMode this = true ->
    let sent1 := sendMail this first now1 events1 emailStore in
    let sent2 := sendMail this second now2 events2 (fst (fst sent1)) in
    fst (fst sent2)
    = (emailStore
       ++ [ {| id := JS.toString now1; timestamp := now1; stored := first;
               status := "sent (local)" |};
            {| id := JS.toString now2; timestamp := now2; stored := second;
               status := "sent (local)" |} ])%list
    /\ snd (fst sent1) = [] /\ snd (fst sent2) = []
    /\ snd sent1 = JS.Fulfilled (JS.toString now1)
    /\ snd sent2 = JS.Fulfilled (JS.toString now2)
    /\ (snd sent1 = snd sent2 <-> now1 = now2).
Proof.
  intros this first second now1 now2 events1 events2 emailStore Hmode
    sent1 sent2.
  subst sent2 sent1. unfold sendMail. rewrite Hmode. cbn [fst snd id].
  repeat split.
  - now rewrite <- app_assoc.
  - intros H. inversion H as [E]. now apply toString_injective.
  - intros E. now subst now2.
Qed.

Lemma local_mode_stores_in_order_witness :
  let sent1 := sendMail Sample.local_options Sample.no_sender 1700000000000%N
                 [] [] in
  let sent2 := sendMail Sample.local_options Sample.no_recipient
                 1700000000000%N [on_timeout] (fst (fst sent1)) in
  fst (fst sent2)
  = ([]
     ++ [ {| id := JS.toString 1700000000000%N; timestamp := 1700000000000%N;
             stored := Sample.no_sender; status := "sent (local)" |};
          {| id := JS.toString 1700000000000%N; timestamp := 1700000000000%N;
             stored := Sample.no_recipient; status := "sent (local)" |} ])%list
  /\ snd (fst sent1) = [] /\ snd (fst sent2) = []
  /\ snd sent1 = JS.Fulfilled (JS.toString 1700000000000%N)
  /\ snd sent2 = JS.Fulfilled (JS.toString 1700000000000%N)
  /\ (snd sent1 = snd sent2 <-> 1700000000000%N = 1700000000000%N).
Proof.
  apply (local_mode_stores_in_order Sample.local_options Sample.no_sender
           Sample.no_recipient 1700000000000%N 1700000000000%N
           [] [on_timeout] []).
  reflexivity.
Defined.

(** * One line per stage *)

Lemma all_impl (class class' : ascii -> bool) (s : string) :
  (forall c, class c = true -> class' c = true) ->
  Pattern.all class s = true -> Pattern.all class' s = true.
Proof.
  intros Himp. induction s as [|c s IH]; simpl; [reflexivity|].
  intros H. apply andb_true_iff in H. destruct H as [Hc Hs].
  now rewrite (Himp c Hc), IH.
Qed.

Lemma until_at_keeps (class : ascii -> bool) (s : string) :
  Pattern.all class s = true -> Pattern.all class (Spec.until_at s) = true.
Proof.
  induction s as [|c s IH]; simpl; [reflexivity|].
  intros H. apply andb_true_iff in H. destruct H as [Hc Hs].
  destruct (Ascii.eqb c "@"); simpl; [reflexivity|].
  now rewrite Hc, IH.
Qed.

Lemma domain_keeps (class : ascii -> bool) (s : string) :
  Pattern.all class s = true ->
  Pattern.all class "undefined" = true ->
  Pattern.all class (JS.render (Spec.domain s)) = true.
Proof.
  intros Hs Hu. induction s as [|c s IH]; [exact Hu|].
  simpl in Hs. apply andb_true_iff in Hs. destruct Hs as [Hc Hs].
  cbn [Spec.domain]. destruct (Ascii.eqb c "@").
  - cbn [JS.render]. now apply until_at_keeps.
  - now apply IH.
Qed.

Lemma base64_line (s : string) : Pattern.all line_char (JS.base64 s) = true.
Proof.
  apply (all_impl base64_symbol); [|apply base64_symbols].
  intros c Hc. unfold line_char.
  destruct (Ascii.eqb_spec c JS.CR) as [E|_]; [subst c; discriminate|].
  destruct (Ascii.eqb_spec c JS.LF) as [E|_]; [subst c; discriminate|].
  reflexivity.
Qed.

(** X19.  When neither the configured user nor the recipient holds a CR or
    an LF, every stage but the message content is exactly one line: its
    text holds no CR and no LF before the CRLF that ends it.  (The content
    stage is made of several lines by design.) *)
Theorem commands_are_single_lines :
  forall this mailOptions now messageId commands u,
    envelope this mailOptions now = JS.Return (messageId, commands) ->
    user (auth this) = Some u ->
    Pattern.all line_char u = true ->
    Pattern.all line_char (JS.render (to mailOptions)) = true ->
    forall k, k < 9 -> k <> 7 ->
      exists line,
        nth k commands EmptyString = line ++ JS.CRLF
        /\ Pattern.all line_char line = true.
Proof.
  intros this mailOptions now messageId commands u H Hu Hclean Hto k Hk H7.
  apply envelope_inv in H.
  destruct H as (f & u' & p & _ & Hu' & Hp & _ & H).
  rewrite Hu in Hu'. inversion Hu'; subst u'. clear Hu'.
  unfold make_commands in H. rewrite Hu, Hp in H. simpl JS.bind in H.
  inversion H as [Hc]. clear H Hc. rewrite after_at_domain.
  destruct k as [|[|[|[|[|[|[|[|[|k]]]]]]]]]; try lia; cbn [nth JS.render].
  - exists ("EHLO " ++ JS.render (Spec.domain u)). split.
    + now rewrite append_assoc.
    + rewrite all_app. rewrite domain_keeps by (exact Hclean || reflexivity).
      reflexivity.
  - exists "AUTH LOGIN". split; reflexivity.
  - exists (JS.base64 u). split; [reflexivity | apply base64_line].
  - exists (JS.base64 p). split; [reflexivity | apply base64_line].
  - exists ("MAIL FROM:<" ++ u ++ ">"). split.
    + cbn [append]. now rewrite append_assoc.
    + rewrite !all_app, Hclean. reflexivity.
  - exists ("RCPT TO:<" ++ JS.render (to mailOptions) ++ ">"). split.
    + cbn [append]. now rewrite append_assoc.
    + rewrite !all_app, Hto. reflexivity.
  - exists "DATA". split; reflexivity.
  - exists "QUIT". split; reflexivity.
Qed.

Lemma commands_are_single_lines_witness :
  exists line,
    nth 5 (Spec.envelope "info@example.com" "s3cret" Sample.direct
             "<1700000000000@example.com>") EmptyString
    = line ++ JS.CRLF
    /\ Pattern.all line_char line = true.
Proof.
  apply (commands_are_single_lines
           Sample.options Sample.direct Sample.clock
           "<1700000000000@example.com>"
           (Spec.envelope "info@example.com" "s3cret" Sample.direct
              "<1700000000000@example.com>")
           "info@example.com" eq_refl eq_refl eq_refl eq_refl 5);
    [lia | discriminate].
Defined.

(** A recipient that holds a line break puts a command of its own on the
    wire inside stage 5. *)
Example recipient_with_line_break :
  let address := "bob@example.org>" ++ JS.CRLF ++ "RCPT TO:<eve@example.org" in
  nth 5 (Spec.envelope "info@example.com" "s3cret"
           {| from := Some "info@example.com"; to := Some address;
              subject := Some "Hello"; text := Some "Hi"; html := None |}
           "<1700000000000@example.com>") EmptyString
  = "RCPT TO:<bob@example.org>" ++ JS.CRLF
      ++ "RCPT TO:<eve@example.org>" ++ JS.CRLF.
Proof. reflexivity. Qed.
